(** * Brand Guardian: the two-node video audit pipeline

    A shallow embedding of
      - [backend/src/graph/state.py]      (the state schema and its reducers),
      - [backend/src/graph/nodes.py]      ([index_video_node], [audit_content_node]),
      - [backend/src/services/video_indexer.py] ([VideoIntelligenceService]),
    followed by the properties of the orchestration contract.

    Conventions.
      - A Python [str] is a list of Unicode code points ([pystr]).
      - External collaborators (YouTube download, Cloud Storage, the Video
        Intelligence API, Vertex AI Search, the chat model) are oracles of a
        [World]; every call to one is recorded in a history of [event]s and an
        oracle may answer according to the history so far.
      - A Python exception is a value of [exn]; code that may raise lives in
        the monad [M], whose [catch] is [try ... except Exception as e].
        Signals that are not subclasses of [Exception] (interrupts) are outside
        the model, and so are the [logger] calls. *)

From Stdlib Require Import String Ascii Bool NArith ZArith QArith Lia List.
Import ListNotations.
Close Scope Q_scope.

Set Implicit Arguments.
Set Warnings "-register-all".

(* ------------------------------------------------------------------ *)
(** * Python strings *)

Module PyStr.

Definition char := N.
Definition pystr := list char.

(** A literal of the source, as code points. *)
Definition str (s : string) : pystr :=
  List.map N_of_ascii (list_ascii_of_string s).

Definition char_eqb (a b : char) : bool := N.eqb a b.

Fixpoint eqb (a b : pystr) : bool :=
  match a, b with
  | [], [] => true
  | x :: a', y :: b' => char_eqb x y && eqb a' b'
  | _, _ => false
  end.

(** [s.startswith(p)] *)
Fixpoint startswith (p s : pystr) : bool :=
  match p, s with
  | [], _ => true
  | x :: p', y :: s' => char_eqb x y && startswith p' s'
  | _ :: _, [] => false
  end.

(** [p in s] for two strings: [p] occurs somewhere in [s]. *)
Fixpoint contains (p s : pystr) : bool :=
  startswith p s ||
  match s with
  | [] => false
  | _ :: s' => contains p s'
  end.

(** [sep.join(parts)] *)
Fixpoint join (sep : pystr) (parts : list pystr) : pystr :=
  match parts with
  | [] => []
  | [x] => x
  | x :: rest => x ++ sep ++ join sep rest
  end.

(** Code points for which [str.isspace()] holds; the same set is used by
    [str.strip()] and by [\s] in a [str] pattern. *)
Definition isspace (c : char) : bool :=
  ((9 <=? c) && (c <=? 13) || (28 <=? c) && (c <=? 32)
   || (c =? 133) || (c =? 160) || (c =? 5760)
   || (8192 <=? c) && (c <=? 8202)
   || (c =? 8232) || (c =? 8233) || (c =? 8239) || (c =? 8287)
   || (c =? 12288))%N.

Fixpoint lstrip (s : pystr) : pystr :=
  match s with
  | [] => []
  | c :: s' => if isspace c then lstrip s' else s
  end.

Definition rstrip (s : pystr) : pystr := rev (lstrip (rev s)).

(** [s.strip()] *)
Definition strip (s : pystr) : pystr := rstrip (lstrip s).

(** Python truthiness of a string: [not s] is [negb (truthy s)]. *)
Definition truthy (s : pystr) : bool :=
  match s with [] => false | _ :: _ => true end.

(** Python truthiness of a list (or repeated field). *)
Definition nonempty {A} (l : list A) : bool :=
  match l with [] => false | _ :: _ => true end.

Definition space : pystr := [32%N].
Definition dquote : pystr := [34%N].
Definition newline : pystr := [10%N].

End PyStr.
Import PyStr.

(* ------------------------------------------------------------------ *)
(** * The fragment of [re] used by the sources

    A backtracking matcher with the priorities of Python's [re]: a greedy
    quantifier tries the longer match first, a lazy one the shorter, and the
    first alternative that lets the rest of the pattern succeed wins. *)

Module Re.

Inductive regex : Type :=
| Lit (s : pystr)               (* a literal string *)
| Seq (r1 r2 : regex)           (* r1 r2 *)
| Opt (r : regex)               (* (?:r)?   greedy *)
| LazyStar (cls : char -> bool) (* c*?      lazy, over a character class *)
| Plus (cls : char -> bool)     (* c+       greedy, over a character class *)
| Group (r : regex).            (* (r)      capture group 1 *)

(** [.] under [re.DOTALL] *)
Definition dot : char -> bool := fun _ => true.

Section Matcher.
Variable R : Type.

(** The continuation receives the rest of the input and group 1. *)
Definition cont := pystr -> option pystr -> option R.

Definition orelse (a : option R) (b : unit -> option R) : option R :=
  match a with Some x => Some x | None => b tt end.

Fixpoint lazy_star (cls : char -> bool) (s : pystr) (k : pystr -> option R)
  : option R :=
  orelse (k s)
    (fun _ => match s with
              | c :: s' => if cls c then lazy_star cls s' k else None
              | [] => None
              end).

Fixpoint greedy_star (cls : char -> bool) (s : pystr) (k : pystr -> option R)
  : option R :=
  match s with
  | c :: s' =>
      if cls c then orelse (greedy_star cls s' k) (fun _ => k s) else k s
  | [] => k []
  end.

Fixpoint run (r : regex) (s : pystr) (g : option pystr) (k : cont)
  : option R :=
  match r with
  | Lit l => if startswith l s then k (skipn (length l) s) g else None
  | Seq r1 r2 => run r1 s g (fun s1 g1 => run r2 s1 g1 k)
  | Opt r1 => orelse (run r1 s g k) (fun _ => k s g)
  | LazyStar cls => lazy_star cls s (fun s1 => k s1 g)
  | Plus cls =>
      match s with
      | c :: s' => if cls c then greedy_star cls s' (fun s1 => k s1 g)
                   else None
      | [] => None
      end
  | Group r1 =>
      run r1 s g
        (fun s1 _ => k s1 (Some (firstn (length s - length s1) s)))
  end.
End Matcher.

(** A match object: what follows the match, and [group(1)]. *)
Record match_obj := { m_rest : pystr; m_group1 : option pystr }.

(** The pattern matched at the very start of [s]. *)
Definition match_at (r : regex) (s : pystr) : option match_obj :=
  run r s None (fun rest g => Some {| m_rest := rest; m_group1 := g |}).

(** [re.search(r, s)]: the leftmost position at which the pattern matches. *)
Fixpoint search (r : regex) (s : pystr) : option match_obj :=
  match match_at r s with
  | Some m => Some m
  | None => match s with
            | [] => None
            | _ :: s' => search r s'
            end
  end.

(** [re.sub(r, repl, s)] for a pattern that cannot match the empty string
    (both patterns of the sources are of the form [c+]): scan from the left,
    replace each match by [repl] and resume after it.  [skip] counts the
    characters of the current match still to be passed over. *)
Fixpoint sub_from (r : regex) (repl : pystr) (skip : nat) (s : pystr)
  : pystr :=
  match s with
  | [] => []
  | c :: s' =>
      match skip with
      | S n => sub_from r repl n s'
      | O =>
          match match_at r s with
          | Some m =>
              match length s - length (m_rest m) with
              | S n => repl ++ sub_from r repl n s'
              | O => c :: sub_from r repl 0 s'
              end
          | None => c :: sub_from r repl 0 s'
          end
      end
  end.

Definition sub (r : regex) (repl s : pystr) : pystr := sub_from r repl 0 s.

End Re.

(* ------------------------------------------------------------------ *)
(** * Python values, exceptions, effects *)

(** Dynamically typed values: what [json.loads] produces and what a
    [Dict[str, Any]] holds.  A dict is its list of items in insertion order.
    A float is represented by its exact rational value. *)
Inductive pyval : Type :=
| VNone
| VBool (b : bool)
| VInt (z : Z)
| VFloat (q : Q)
| VStr (s : pystr)
| VList (l : list pyval)
| VDict (items : list (pystr * pyval)).

(** [type(v).__name__] *)
Definition type_name (v : pyval) : pystr :=
  match v with
  | VNone => str "NoneType"
  | VBool _ => str "bool"
  | VInt _ => str "int"
  | VFloat _ => str "float"
  | VStr _ => str "str"
  | VList _ => str "list"
  | VDict _ => str "dict"
  end.

(** [d.get(key, default)] on the items of a dict. *)
Fixpoint dict_get (items : list (pystr * pyval)) (key : pystr)
  (default : pyval) : pyval :=
  match items with
  | [] => default
  | (k, v) :: rest => if PyStr.eqb k key then v else dict_get rest key default
  end.

(** [key in d] *)
Fixpoint dict_has (items : list (pystr * pyval)) (key : pystr) : bool :=
  match items with
  | [] => false
  | (k, _) :: rest => PyStr.eqb k key || dict_has rest key
  end.

(** A raised instance of (a subclass of) [Exception]. *)
Record exn := Exn { exn_class : string; exn_msg : pystr }.

(** [str(e)] *)
Definition str_exn (e : exn) : pystr := exn_msg e.

(** How an f-string renders an [Optional[str]]. *)
Definition fmt (o : option pystr) : pystr :=
  match o with Some s => s | None => str "None" end.

(** ** What the Video Intelligence API returns *)

Module videointelligence.
Record SpeechRecognitionAlternative := { transcript : pystr }.
Record SpeechTranscription :=
  { alternatives : list SpeechRecognitionAlternative }.
Record TextAnnotation := { text : pystr }.
(** Offsets are [timedelta]s, in microseconds. *)
Record VideoSegment :=
  { start_time_offset : Z; end_time_offset : Z }.
Record LabelSegment := { segment : VideoSegment }.
Record LabelAnnotation := { segments : list LabelSegment }.
Record VideoAnnotationResults :=
  { speech_transcriptions : list SpeechTranscription;
    text_annotations : list TextAnnotation;
    segment_label_annotations : list LabelAnnotation }.
Record AnnotateVideoResponse :=
  { annotation_results : list VideoAnnotationResults }.

(** [timedelta.total_seconds()] *)
Definition total_seconds (td : Z) : Q := Qmake td 1000000.
End videointelligence.

(** A retrieved document. *)
Record Document := { page_content : pystr }.

(** The two messages sent to the chat model are fixed templates of
    [audit_content_node]; the request is represented by the values that
    fill them in. *)
Record LlmMessages :=
  { retrieved_rules : pystr;     (* system prompt: OFFICIAL REGULATORY RULES *)
    msg_video_metadata : pyval;  (* user message: VIDEO METADATA *)
    msg_transcript : pystr;      (* user message: TRANSCRIPT *)
    msg_ocr_text : list pystr }. (* user message: ON-SCREEN TEXT (OCR) *)

(** ** External calls *)

Inductive event : Type :=
| EvServiceInit                              (* storage / video clients *)
| EvDownload (url output_path : pystr)       (* yt_dlp download *)
| EvUpload (video_path blob_name : pystr)    (* blob.upload_from_filename *)
| EvPathExists (path : pystr)                (* os.path.exists *)
| EvRemove (path : pystr)                    (* os.remove *)
| EvAnnotate (gcs_uri : pystr)               (* annotate_video + result *)
| EvLlmInit                                  (* ChatVertexAI(...) *)
| EvRetrieverInit                            (* VertexAISearchRetriever(...) *)
| EvRetrieve (query : pystr)                 (* retriever.invoke *)
| EvLlmInvoke (messages : LlmMessages).      (* llm.invoke *)

Definition history := list event.

(** The collaborators.  Each oracle sees the calls made before it. *)
Record World := {
  getenv : string -> option pystr;
  service_init : history -> exn + unit;
  ydl_download : history -> pystr -> pystr -> exn + unit;
  upload_from_filename : history -> option pystr -> pystr -> pystr -> exn + unit;
  path_exists : history -> pystr -> bool;
  os_remove : history -> pystr -> exn + unit;
  annotate : history -> pystr -> exn + videointelligence.AnnotateVideoResponse;
  llm_init : history -> exn + unit;
  retriever_init : history -> exn + unit;
  retriever_invoke : history -> pystr -> exn + list Document;
  llm_invoke : history -> LlmMessages -> exn + pystr
}.

(** ** The monad of code that calls out and may raise *)

Definition M (A : Type) : Type := history -> history * (exn + A).

Definition ret {A} (a : A) : M A := fun h => (h, inr a).

Definition raise {A} (e : exn) : M A := fun h => (h, inl e).

Definition bind {A B} (m : M A) (f : A -> M B) : M B :=
  fun h =>
    match m h with
    | (h1, inr a) => f a h1
    | (h1, inl e) => (h1, inl e)
    end.

(** [try: body  except Exception as e: handler(e)] *)
Definition catch {A} (body : M A) (handler : exn -> M A) : M A :=
  fun h =>
    match body h with
    | (h1, inr a) => (h1, inr a)
    | (h1, inl e) => handler e h1
    end.

(** A pure computation that may raise. *)
Definition lift {A} (r : exn + A) : M A := fun h => (h, r).

(** One external call: it is appended to the history, and answered from the
    history before it. *)
Definition call {A} (ev : event) (oracle : history -> exn + A) : M A :=
  fun h => (h ++ [ev], oracle h).

Declare Scope py_scope.
Delimit Scope py_scope with py.
Notation "x <- m ;; k" := (bind m (fun x => k))
  (at level 61, m at next level, right associativity) : py_scope.
Notation "m ;;; k" := (bind m (fun _ => k))
  (at level 61, right associativity) : py_scope.
Open Scope py_scope.

(* ------------------------------------------------------------------ *)
(** * state.py *)

(** [VideoAuditState], as a node reads it.  A plain key is absent until
    something writes it (no node ever stores [None] under [transcript] or
    [local_file_path], so an absent key and a [None] value are one case);
    the two keys annotated with [operator.add] always hold a list.  The
    three keys filled from the model's JSON hold whatever it contained. *)
Record VideoAuditState := {
  video_url : option pystr;
  video_id : option pystr;
  local_file_path : option pystr;
  video_metadata : option pyval;
  transcript : option pystr;
  ocr_text : option (list pystr);
  compliance_results : list pyval;       (* Annotated[..., operator.add] *)
  final_status : option pyval;
  final_report : option pyval;
  errors : list pystr                    (* Annotated[..., operator.add] *)
}.

(** The [Dict[str, Any]] a node returns (and the caller's initial inputs): a
    value for some of the keys of the state. *)
Record Update := {
  upd_video_url : option pystr;
  upd_video_id : option pystr;
  upd_local_file_path : option pystr;
  upd_video_metadata : option pyval;
  upd_transcript : option pystr;
  upd_ocr_text : option (list pystr);
  upd_compliance_results : option pyval;
  upd_final_status : option pyval;
  upd_final_report : option pyval;
  upd_errors : option (list pystr)
}.

(** [{}] *)
Definition empty_update : Update :=
  {| upd_video_url := None; upd_video_id := None;
     upd_local_file_path := None; upd_video_metadata := None;
     upd_transcript := None; upd_ocr_text := None;
     upd_compliance_results := None; upd_final_status := None;
     upd_final_report := None; upd_errors := None |}.

(** [operator.add] with a list on the left, as the reducer applies it. *)
Definition operator_add (old : list pyval) (new : pyval)
  : exn + list pyval :=
  match new with
  | VList l => inr (old ++ l)
  | _ => inl (Exn "TypeError"
                (str "can only concatenate list (not " ++ dquote
                 ++ type_name new ++ dquote ++ str ") to list"))
  end.

(* ------------------------------------------------------------------ *)
(** * services/video_indexer.py *)

Module VideoIntelligenceService.
Import videointelligence.

(** The attributes set by [__init__]. *)
Record t := {
  project_id : option pystr;
  location : pystr;
  bucket_name : option pystr
}.

Section Service.
Variable w : World.

Definition init : M t :=
  call EvServiceInit (service_init w) ;;;
  ret {| project_id := getenv w "GOOGLE_CLOUD_PROJECT";
         location := match getenv w "GOOGLE_CLOUD_LOCATION" with
                     | Some l => l
                     | None => str "asia-southeast1"
                     end;
         bucket_name := getenv w "GCS_BUCKET_NAME" |}.

Definition download_youtube_video (self : t) (url output_path : pystr)
  : M pystr :=
  catch
    (call (EvDownload url output_path) (fun h => ydl_download w h url output_path) ;;;
     ret output_path)
    (fun e =>
       raise (Exn "Exception" (str "YouTube Download Failed: " ++ str_exn e))).

Definition upload_video (self : t) (video_path video_name : pystr)
  : M pystr :=
  catch
    (let destination_blob_name := str "videos/" ++ video_name ++ str ".mp4" in
     call (EvUpload video_path destination_blob_name)
       (fun h => upload_from_filename w h (bucket_name self)
                   destination_blob_name video_path) ;;;
     ret (str "gs://" ++ fmt (bucket_name self) ++ str "/"
          ++ destination_blob_name))
    (fun e =>
       raise (Exn "Exception" (str "GCS Upload Failed: " ++ str_exn e))).

Definition annotate_video (self : t) (gcs_uri : pystr)
  : M AnnotateVideoResponse :=
  call (EvAnnotate gcs_uri) (fun h => annotate w h gcs_uri).
End Service.

(** ** [extract_data] *)

(** The loop over the speech segments: the best alternative of each
    segment that has one is appended.  (With no speech segment the loop is
    skipped and the list stays empty, which is what this gives on [[]].) *)
Definition transcript_parts (sts : list SpeechTranscription) : list pystr :=
  fold_left
    (fun parts speech_transcription =>
       match alternatives speech_transcription with
       | best_alternative :: _ => parts ++ [transcript best_alternative]
       | [] => parts
       end)
    sts [].

(** The loop that collects the OCR lines. *)
Definition ocr_lines (tas : list TextAnnotation) : list pystr :=
  fold_left (fun lines text_annotation => lines ++ [text text_annotation])
    tas [].

(** [[^\x00-\x7F]] *)
Definition non_ascii (c : char) : bool := (127 <? c)%N.

(** [re.sub(r'[^\x00-\x7F]+', ' ', raw_ocr)], then
    [re.sub(r'\s+', ' ', ...).strip()]. *)
Definition clean_ocr (raw_ocr : pystr) : pystr :=
  let cleaned_ocr := Re.sub (Re.Plus non_ascii) space raw_ocr in
  strip (Re.sub (Re.Plus isspace) space cleaned_ocr).

Definition full_transcript (annotations : VideoAnnotationResults) : pystr :=
  let full_transcript :=
    strip (join space (transcript_parts (speech_transcriptions annotations))) in
  if negb (truthy full_transcript)
     && nonempty (text_annotations annotations)
  then clean_ocr (join space (map text (text_annotations annotations)))
  else full_transcript.

(** [xs[-1]] *)
Definition last_item {A} (xs : list A) : exn + A :=
  match rev xs with
  | x :: _ => inr x
  | [] => inl (Exn "IndexError" (str "list index out of range"))
  end.

Definition duration_sec (annotations : VideoAnnotationResults)
  : exn + pyval :=
  match segment_label_annotations annotations with
  | first :: _ =>
      match last_item (segments first) with
      | inr last_segment =>
          inr (VFloat (total_seconds (end_time_offset (segment last_segment))))
      | inl e => inl e
      end
  | [] => inr (VInt 0)
  end.

Definition extract_data (self : t) (analysis_result : AnnotateVideoResponse)
  : exn + Update :=
  match annotation_results analysis_result with
  | [] =>
      inr {| upd_video_url := None; upd_video_id := None;
             upd_local_file_path := None; upd_video_metadata := None;
             upd_transcript := Some []; upd_ocr_text := Some [];
             upd_compliance_results := None; upd_final_status := None;
             upd_final_report := None; upd_errors := None |}
  | annotations :: _ =>
      let ocr_lines := ocr_lines (text_annotations annotations) in
      match duration_sec annotations with
      | inl e => inl e
      | inr duration =>
          inr {| upd_video_url := None; upd_video_id := None;
                 upd_local_file_path := None;
                 upd_video_metadata :=
                   Some (VDict
                     [ (str "duration", duration);
                       (str "platform", VStr (str "youtube"));
                       (str "source_uri",
                        VStr (str "gs://" ++ fmt (bucket_name self)
                              ++ str "/...")) ]);
                 upd_transcript := Some (full_transcript annotations);
                 upd_ocr_text := Some ocr_lines;
                 upd_compliance_results := None; upd_final_status := None;
                 upd_final_report := None; upd_errors := None |}
      end
  end.

End VideoIntelligenceService.

(* ------------------------------------------------------------------ *)
(** * graph/nodes.py *)

(** [r"```(?:json)?(.*?)```"], compiled with [re.DOTALL]. *)
Definition fence : pystr := str "```".

Definition FENCE_RE : Re.regex :=
  Re.Seq (Re.Lit fence)
    (Re.Seq (Re.Opt (Re.Lit (str "json")))
       (Re.Seq (Re.Group (Re.LazyStar Re.dot)) (Re.Lit fence))).

(** The "Clean Markdown" step: the new value of [content]; [None] is
    Python's [None] (a [group(1)] that took no part in the match). *)
Definition clean_markdown (content : pystr) : option pystr :=
  if contains fence content then
    match Re.search FENCE_RE content with
    | Some m => Re.m_group1 m
    | None => Some content
    end
  else Some content.

Definition FALLBACK_QUERY : pystr :=
  str "General Brand Safety Guidelines Compliance Rules".

Definition SKIPPED_REPORT : pystr :=
  str "Audit skipped because video processing failed (No Transcript).".

Definition NO_REPORT : pystr := str "No report generated.".

Definition FAIL : pyval := VStr (str "FAIL").

(** The dict returned by the [except] branch of [index_video_node]. *)
Definition index_failure (e : exn) : Update :=
  {| upd_video_url := None; upd_video_id := None;
     upd_local_file_path := None; upd_video_metadata := None;
     upd_transcript := Some []; upd_ocr_text := Some [];
     upd_compliance_results := None; upd_final_status := Some FAIL;
     upd_final_report := None; upd_errors := Some [str_exn e] |}.

(** The dict returned when there is no transcript. *)
Definition audit_skipped : Update :=
  {| upd_video_url := None; upd_video_id := None;
     upd_local_file_path := None; upd_video_metadata := None;
     upd_transcript := None; upd_ocr_text := None;
     upd_compliance_results := None; upd_final_status := Some FAIL;
     upd_final_report := Some (VStr SKIPPED_REPORT); upd_errors := None |}.

(** The dict built from the parsed answer of the model. *)
Definition audit_result (items : list (pystr * pyval)) : Update :=
  {| upd_video_url := None; upd_video_id := None;
     upd_local_file_path := None; upd_video_metadata := None;
     upd_transcript := None; upd_ocr_text := None;
     upd_compliance_results :=
       Some (dict_get items (str "compliance_results") (VList []));
     upd_final_status := Some (dict_get items (str "status") FAIL);
     upd_final_report :=
       Some (dict_get items (str "final_report") (VStr NO_REPORT));
     upd_errors := None |}.

(** The dict returned by the [except] branch of [audit_content_node]. *)
Definition audit_failure (e : exn) : Update :=
  {| upd_video_url := None; upd_video_id := None;
     upd_local_file_path := None; upd_video_metadata := None;
     upd_transcript := None; upd_ocr_text := None;
     upd_compliance_results := None; upd_final_status := Some FAIL;
     upd_final_report := None; upd_errors := Some [str_exn e] |}.

Definition no_attribute (v : pyval) (attr : string) : exn :=
  Exn "AttributeError"
    (str "'" ++ type_name v ++ str "' object has no attribute '"
     ++ str attr ++ str "'").

Section Nodes.
(** [json.loads] *)
Variable json_loads : pystr -> exn + pyval.
Variable w : World.

(** Steps 1 to 4 of the [try] of [index_video_node]: the service, the
    download, the upload, the clean-up and the annotation. *)
Definition annotate_steps (state : VideoAuditState)
  : M (VideoIntelligenceService.t
       * videointelligence.AnnotateVideoResponse) :=
  let video_id_input :=
    match video_id state with Some v => v | None => str "vid_demo" end in
  let local_filename := str "temp_" ++ video_id_input ++ str ".mp4" in
  vi_service <- VideoIntelligenceService.init w ;;
  local_path <-
    match video_url state with
    | None =>
        raise (Exn "TypeError"
                 (str "argument of type 'NoneType' is not iterable"))
    | Some url =>
        if contains (str "youtube.com") url || contains (str "youtu.be") url
        then VideoIntelligenceService.download_youtube_video
               w vi_service url local_filename
        else raise (Exn "Exception"
                      (str "Please provide a valid YouTube URL for this test."))
    end ;;
  gcs_uri <- VideoIntelligenceService.upload_video
               w vi_service local_path video_id_input ;;
  present <- call (EvPathExists local_path)
               (fun h => inr (path_exists w h local_path)) ;;
  (if present : bool
   then call (EvRemove local_path) (fun h => os_remove w h local_path)
   else ret tt) ;;;
  raw_insights <- VideoIntelligenceService.annotate_video
                    w vi_service gcs_uri ;;
  ret (vi_service, raw_insights).

(** The body of the [try] of [index_video_node]: step 5 is the
    extraction. *)
Definition index_steps (state : VideoAuditState) : M Update :=
  acquired <- annotate_steps state ;;
  clean_data <- lift (VideoIntelligenceService.extract_data
                        (fst acquired) (snd acquired)) ;;
  ret clean_data.

Definition index_video_node (state : VideoAuditState) : M Update :=
  catch (index_steps state) (fun e => ret (index_failure e)).

(** Sections 1 to 3 of [audit_content_node]: the two clients and the
    retrieval, all of it before the [try]. *)
Definition rag_retrieval (state : VideoAuditState) (transcript : pystr)
  : M (list Document) :=
  call EvLlmInit (llm_init w) ;;;
  call EvRetrieverInit (retriever_init w) ;;;
  let ocr_text := match ocr_text state with Some l => l | None => [] end in
  let query_text := transcript ++ space ++ join space ocr_text in
  docs <- call (EvRetrieve query_text)
            (fun h => retriever_invoke w h query_text) ;;
  if negb (nonempty docs)
  then call (EvRetrieve FALLBACK_QUERY)
         (fun h => retriever_invoke w h FALLBACK_QUERY)
  else ret docs.

(** Section 4: what the two messages are filled in with. *)
Definition audit_messages (state : VideoAuditState) (transcript : pystr)
  (docs : list Document) : LlmMessages :=
  {| retrieved_rules := join (newline ++ newline) (map page_content docs);
     msg_video_metadata :=
       match video_metadata state with Some m => m | None => VDict [] end;
     msg_transcript := transcript;
     msg_ocr_text :=
       match ocr_text state with Some l => l | None => [] end |}.

(** [json.loads(content.strip())] on the cleaned content. *)
Definition load_response (content : pystr) : exn + pyval :=
  match clean_markdown content with
  | None => inl (no_attribute VNone "strip")
  | Some content => json_loads (strip content)
  end.

(** What follows [llm.invoke] inside the [try]. *)
Definition parse_response (content : pystr) : exn + Update :=
  match load_response content with
  | inl e => inl e
  | inr (VDict items) => inr (audit_result items)
  | inr audit_data => inl (no_attribute audit_data "get")
  end.

(** The body of the [try] of [audit_content_node]. *)
Definition audit_steps (messages : LlmMessages) : M Update :=
  content <- call (EvLlmInvoke messages)
               (fun h => llm_invoke w h messages) ;;
  lift (parse_response content).

Definition audit_content_node (state : VideoAuditState) : M Update :=
  let transcript :=
    match transcript state with Some t => t | None => [] end in
  if negb (truthy transcript) then ret audit_skipped
  else
    docs <- rag_retrieval state transcript ;;
    catch (audit_steps (audit_messages state transcript docs))
      (fun e => ret (audit_failure e)).
End Nodes.

(* ------------------------------------------------------------------ *)
(** * The orchestration graph *)

(** A key without a reducer keeps the last value written to it. *)
Definition last_value {A} (old new : option A) : option A :=
  match new with Some v => Some v | None => old end.

(** Modelled from the spec: [graph/workflow.py], which builds and compiles
    the graph over [VideoAuditState], is not among the sources.  Section 4.3:
    the list-valued fields [compliance_results] and [errors] are concatenated
    across node outputs (the reducer is the [operator.add] of state.py), and
    every other field is overwritten by the most recent output that has it. *)
Definition apply_writes (s : VideoAuditState) (u : Update)
  : exn + VideoAuditState :=
  match
    match upd_compliance_results u with
    | Some v => operator_add (compliance_results s) v
    | None => inr (compliance_results s)
    end
  with
  | inl e => inl e
  | inr results =>
      inr {| video_url := last_value (video_url s) (upd_video_url u);
             video_id := last_value (video_id s) (upd_video_id u);
             local_file_path :=
               last_value (local_file_path s) (upd_local_file_path u);
             video_metadata :=
               last_value (video_metadata s) (upd_video_metadata u);
             transcript := last_value (transcript s) (upd_transcript u);
             ocr_text := last_value (ocr_text s) (upd_ocr_text u);
             compliance_results := results;
             final_status := last_value (final_status s) (upd_final_status u);
             final_report := last_value (final_report s) (upd_final_report u);
             errors :=
               errors s ++ match upd_errors u with Some l => l | None => [] end
          |}
  end.

(** Modelled from the spec: the state before the caller's inputs are written. *)
Definition initial_state : VideoAuditState :=
  {| video_url := None; video_id := None; local_file_path := None;
     video_metadata := None; transcript := None; ocr_text := None;
     compliance_results := []; final_status := None; final_report := None;
     errors := [] |}.

(** Modelled from the spec: [graph/workflow.py] is not among the sources.
    Section 4.3: two fixed nodes executed strictly in sequence, Extraction
    then Judgment, the output of each merged into the state; no branching. *)
Definition invoke (json_loads : pystr -> exn + pyval) (w : World)
  (inputs : Update) : M VideoAuditState :=
  s0 <- lift (apply_writes initial_state inputs) ;;
  out1 <- index_video_node w s0 ;;
  s1 <- lift (apply_writes s0 out1) ;;
  out2 <- audit_content_node json_loads w s1 ;;
  lift (apply_writes s1 out2).

(** What a dict contributes to each of the two accumulated lists. *)
Definition results_of (u : Update) : list pyval :=
  match upd_compliance_results u with Some (VList l) => l | _ => [] end.

Definition errors_of (u : Update) : list pystr :=
  match upd_errors u with Some l => l | None => [] end.

(** The value of one key after a sequence of writes, oldest first. *)
Fixpoint last_written {A} (field : Update -> option A) (writes : list Update)
  : option A :=
  match writes with
  | [] => None
  | u :: later =>
      match last_written field later with
      | Some v => Some v
      | None => field u
      end
  end.

(* ------------------------------------------------------------------ *)
(** * Reference definitions for the statements *)

(** Every maximal run of characters of a class replaced by [repl];
    [in_run] tells whether the previous character was in the class. *)
Fixpoint replace_runs (cls : char -> bool) (repl : pystr) (in_run : bool)
  (s : pystr) : pystr :=
  match s with
  | [] => []
  | c :: s' =>
      if cls c
      then if in_run then replace_runs cls repl true s'
           else repl ++ replace_runs cls repl true s'
      else c :: replace_runs cls repl false s'
  end.

(** Runs of whitespace collapsed to single spaces. *)
Definition collapse_whitespace (s : pystr) : pystr :=
  replace_runs isspace space false s.

(** The OCR clean-up in the words of the specification: non-ASCII characters
    stripped, whitespace collapsed, trimmed at both ends. *)
Definition ocr_cleaned_as_specified (raw_ocr : pystr) : pystr :=
  strip (collapse_whitespace
           (filter (fun c => negb (VideoIntelligenceService.non_ascii c))
              raw_ocr)).

(** The OCR clean-up as the code performs it: every run of non-ASCII
    characters becomes one space, whitespace is collapsed, the ends are
    trimmed. *)
Definition ocr_cleaned (raw_ocr : pystr) : pystr :=
  strip (collapse_whitespace
           (replace_runs VideoIntelligenceService.non_ascii space false
              raw_ocr)).

(** The first alternative's transcript of each speech segment that has at
    least one alternative, in segment order. *)
Definition best_alternatives
  (sts : list videointelligence.SpeechTranscription) : list pystr :=
  flat_map
    (fun st =>
       match videointelligence.alternatives st with
       | best :: _ => [videointelligence.transcript best]
       | [] => []
       end)
    sts.

(** The speech transcript of the claim: those transcripts space-joined and
    trimmed. *)
Definition speech_transcript
  (annotations : videointelligence.VideoAnnotationResults) : pystr :=
  strip (join space
           (best_alternatives
              (videointelligence.speech_transcriptions annotations))).

(** The text blocks of the OCR annotations, space-joined. *)
Definition joined_ocr
  (annotations : videointelligence.VideoAnnotationResults) : pystr :=
  join space
    (map videointelligence.text
       (videointelligence.text_annotations annotations)).

(** What remains of a string after its leading run of class characters. *)
Fixpoint skip_run (cls : char -> bool) (s : pystr) : pystr :=
  match s with
  | [] => []
  | c :: s' => if cls c then skip_run cls s' else s
  end.

(** A model response and the payload it carries: either the payload sits in
    the first code fence of the response, with or without the [json] tag,
    and no fence begins inside it; or the response has no fence at all and
    is the payload.  An untagged payload does not itself begin with the
    letters [json] (no JSON text does). *)
Inductive carries : pystr -> pystr -> Prop :=
| carries_tagged (pre payload post : pystr) :
    contains fence (pre ++ str "``") = false ->
    contains fence (payload ++ str "``") = false ->
    carries (pre ++ fence ++ (str "json" ++ payload) ++ fence ++ post) payload
| carries_untagged (pre payload post : pystr) :
    contains fence (pre ++ str "``") = false ->
    contains fence (payload ++ str "``") = false ->
    startswith (str "json") payload = false ->
    carries (pre ++ fence ++ payload ++ fence ++ post) payload
| carries_plain (content : pystr) :
    contains fence content = false ->
    carries content content.

(** The queries of the retrieval calls of a history, in order. *)
Fixpoint retrievals (h : history) : list pystr :=
  match h with
  | [] => []
  | EvRetrieve q :: h' => q :: retrievals h'
  | _ :: h' => retrievals h'
  end.

(** The requests sent to the chat model in a history. *)
Fixpoint inferences (h : history) : list LlmMessages :=
  match h with
  | [] => []
  | EvLlmInvoke m :: h' => m :: inferences h'
  | _ :: h' => inferences h'
  end.

(** The primary retrieval query of a state. *)
Definition primary_query (state : VideoAuditState) (transcript : pystr)
  : pystr :=
  transcript ++ space
  ++ join space (match ocr_text state with Some l => l | None => [] end).

(* ------------------------------------------------------------------ *)
(** * Sample inputs *)

Module Sample.

Definition ok : exn + unit := inr tt.

Definition timeout_error : exn :=
  Exn "DeadlineExceeded" (str "504 Deadline Exceeded").

Definition doc : Document := {| page_content := str "Rule 1: no absolute claims." |}.

Definition quoted (s : string) : pystr := dquote ++ str s ++ dquote.

(** A verdict with one violation, as JSON text and as the value it
    denotes. *)
Definition verdict_text : pystr :=
  str "{" ++ quoted "compliance_results" ++ str ":[{"
  ++ quoted "category" ++ str ":" ++ quoted "Claim Validation" ++ str ","
  ++ quoted "severity" ++ str ":" ++ quoted "CRITICAL" ++ str ","
  ++ quoted "description" ++ str ":" ++ quoted "Absolute claim" ++ str "}],"
  ++ quoted "status" ++ str ":" ++ quoted "FAIL" ++ str ","
  ++ quoted "final_report" ++ str ":" ++ quoted "One violation" ++ str "}".

Definition violation : pyval :=
  VDict [ (str "category", VStr (str "Claim Validation"));
          (str "severity", VStr (str "CRITICAL"));
          (str "description", VStr (str "Absolute claim")) ].

Definition verdict : pyval :=
  VDict [ (str "compliance_results", VList [violation]);
          (str "status", VStr (str "FAIL"));
          (str "final_report", VStr (str "One violation")) ].

(** A parser that knows three texts. *)
Definition json_loads (s : pystr) : exn + pyval :=
  if PyStr.eqb s (str "{}") then inr (VDict [])
  else if PyStr.eqb s (str "[]") then inr (VList [])
  else if PyStr.eqb s verdict_text then inr verdict
  else inl (Exn "JSONDecodeError"
              (str "Expecting value: line 1 column 1 (char 0)")).

(** One video with a single speech segment. *)
Definition spoken : videointelligence.AnnotateVideoResponse :=
  {| videointelligence.annotation_results :=
       [ {| videointelligence.speech_transcriptions :=
              [ {| videointelligence.alternatives :=
                     [ {| videointelligence.transcript :=
                            str "no claims here" |} ] |} ];
            videointelligence.text_annotations := [];
            videointelligence.segment_label_annotations := [] |} ] |}.

(** A world given by the answers of the download, of the annotation, of
    the retriever and of the chat model; every other collaborator
    succeeds. *)
Definition world (download : exn + unit)
  (annotation : exn + videointelligence.AnnotateVideoResponse)
  (retrieve : history -> pystr -> exn + list Document)
  (answer : exn + pystr) : World :=
  {| getenv := fun name =>
       if String.eqb name "GCS_BUCKET_NAME" then Some (str "brand-videos")
       else None;
     service_init := fun _ => ok;
     ydl_download := fun _ _ _ => download;
     upload_from_filename := fun _ _ _ _ => ok;
     path_exists := fun _ _ => true;
     os_remove := fun _ _ => ok;
     annotate := fun _ _ => annotation;
     llm_init := fun _ => ok;
     retriever_init := fun _ => ok;
     retriever_invoke := retrieve;
     llm_invoke := fun _ _ => answer |}.

(** Nothing for the primary query, one document for the fallback. *)
Definition retrieve_fallback_only (h : history) (q : pystr)
  : exn + list Document :=
  if PyStr.eqb q FALLBACK_QUERY then inr [doc] else inr [].

Definition retrieve_always (h : history) (q : pystr) : exn + list Document :=
  inr [doc].

Definition retrieve_down (h : history) (q : pystr) : exn + list Document :=
  inl (Exn "ServiceUnavailable" (str "503 Search backend unavailable")).

Definition inputs : Update :=
  {| upd_video_url := Some (str "https://youtu.be/dT7S75eYhcQ");
     upd_video_id := Some (str "vid_ce6c43bb");
     upd_local_file_path := None; upd_video_metadata := None;
     upd_transcript := None; upd_ocr_text := None;
     upd_compliance_results := Some (VList []);
     upd_final_status := None; upd_final_report := None;
     upd_errors := Some [] |}.

(** The state the first node receives from [inputs]. *)
Definition state0 : VideoAuditState :=
  {| video_url := Some (str "https://youtu.be/dT7S75eYhcQ");
     video_id := Some (str "vid_ce6c43bb");
     local_file_path := None; video_metadata := None;
     transcript := None; ocr_text := None;
     compliance_results := []; final_status := None; final_report := None;
     errors := [] |}.

(** A state as the second node receives it after a successful extraction. *)
Definition extracted : VideoAuditState :=
  {| video_url := Some (str "https://youtu.be/dT7S75eYhcQ");
     video_id := Some (str "vid_ce6c43bb");
     local_file_path := None; video_metadata := None;
     transcript := Some (str "no claims here"); ocr_text := Some [];
     compliance_results := []; final_status := None; final_report := None;
     errors := [] |}.

(** The service object in that environment. *)
Definition service : VideoIntelligenceService.t :=
  {| VideoIntelligenceService.project_id := None;
     VideoIntelligenceService.location := str "asia-southeast1";
     VideoIntelligenceService.bucket_name := Some (str "brand-videos") |}.

(** A video without speech whose single OCR block has a trademark sign
    (U+2122) between two words. *)
Definition ocr_only : videointelligence.VideoAnnotationResults :=
  {| videointelligence.speech_transcriptions := [];
     videointelligence.text_annotations :=
       [ {| videointelligence.text := str "SALE" ++ [8482%N] ++ str "NOW" |} ];
     videointelligence.segment_label_annotations := [] |}.

(** A video with one speech segment whose best alternative is empty, and
    one OCR block. *)
Definition silent_segment : videointelligence.VideoAnnotationResults :=
  {| videointelligence.speech_transcriptions :=
       [ {| videointelligence.alternatives :=
              [ {| videointelligence.transcript := str "" |} ] |} ];
     videointelligence.text_annotations :=
       [ {| videointelligence.text := str "SALE" |} ];
     videointelligence.segment_label_annotations := [] |}.

(** A video with two speech segments, two OCR blocks and a label. *)
Definition talk : videointelligence.VideoAnnotationResults :=
  {| videointelligence.speech_transcriptions :=
       [ {| videointelligence.alternatives :=
              [ {| videointelligence.transcript := str " Buy now." |};
                {| videointelligence.transcript := str "By now" |} ] |};
         {| videointelligence.alternatives := [] |};
         {| videointelligence.alternatives :=
              [ {| videointelligence.transcript := str "It works! " |} ] |} ];
     videointelligence.text_annotations :=
       [ {| videointelligence.text := str "50% OFF" |};
         {| videointelligence.text := str "T&C apply" |} ];
     videointelligence.segment_label_annotations :=
       [ {| videointelligence.segments :=
              [ {| videointelligence.segment :=
                     {| videointelligence.start_time_offset := 0;
                        videointelligence.end_time_offset := 12500000 |} |} ]
         |} ] |}.

(** A response with no annotation result at all. *)
Definition nothing_annotated : videointelligence.AnnotateVideoResponse :=
  {| videointelligence.annotation_results := [] |}.

(** A fenced JSON object whose report quotes a code fence. *)
Definition payload_with_fence : pystr :=
  str "{" ++ dquote ++ str "final_report" ++ dquote ++ str ":"
  ++ dquote ++ str "see ```x```" ++ dquote ++ str "}".

(** The state the second node receives when nothing was annotated. *)
Definition nothing_extracted : VideoAuditState :=
  {| video_url := Some (str "https://youtu.be/dT7S75eYhcQ");
     video_id := Some (str "vid_ce6c43bb");
     local_file_path := None; video_metadata := None;
     transcript := Some (str ""); ocr_text := Some [];
     compliance_results := []; final_status := None; final_report := None;
     errors := [] |}.

(** Worlds: everything works; the download fails; nothing is annotated;
    the search backend is down. *)
Definition working : World :=
  world ok (inr spoken) retrieve_fallback_only (inr (str "```json{}```")).

Definition judging : World :=
  world ok (inr spoken) retrieve_always
    (inr (fence ++ str "json" ++ newline ++ verdict_text ++ newline ++ fence)).

Definition download_down : World :=
  world (inl timeout_error) (inr spoken) retrieve_always (inr (str "{}")).

Definition blank_video : World :=
  world ok (inr nothing_annotated) retrieve_always (inr (str "{}")).

Definition search_down : World :=
  world ok (inr spoken) retrieve_down (inr (str "{}")).

End Sample.

(* ------------------------------------------------------------------ *)
(** * More reference definitions *)

(** Every whitespace character is a space and no two of them are adjacent;
    [after_space] tells whether the previous character was whitespace. *)
Fixpoint single_spaced (after_space : bool) (s : pystr) : bool :=
  match s with
  | [] => true
  | c :: s' =>
      if isspace c
      then N.eqb c 32 && negb after_space && single_spaced true s'
      else single_spaced false s'
  end.

(** The files removed in a history, in order. *)
Fixpoint removals (h : history) : list pystr :=
  match h with
  | [] => []
  | EvRemove p :: h' => p :: removals h'
  | _ :: h' => removals h'
  end.

(* ------------------------------------------------------------------ *)
(** * Effects of the two stand-alone scripts

    The same monad as [M], over the events of one script. *)

Module Trace.
Section Over.
Variable E : Type.

Definition T (A : Type) : Type := list E -> list E * (exn + A).

Definition ret {A} (a : A) : T A := fun h => (h, inr a).

Definition bind {A B} (m : T A) (f : A -> T B) : T B :=
  fun h =>
    match m h with
    | (h1, inr a) => f a h1
    | (h1, inl e) => (h1, inl e)
    end.

(** [try: body  except Exception as e: handler(e)] *)
Definition catch {A} (body : T A) (handler : exn -> T A) : T A :=
  fun h =>
    match body h with
    | (h1, inr a) => (h1, inr a)
    | (h1, inl e) => handler e h1
    end.

Definition call {A} (ev : E) (oracle : list E -> exn + A) : T A :=
  fun h => (h ++ [ev], oracle h).
End Over.
End Trace.

(* ------------------------------------------------------------------ *)
(** * scripts/index_documents.py *)

Module index_documents.

Inductive event : Type :=
| EvStorageClient                       (* storage.Client() *)
| EvGlob (pattern : pystr)              (* glob.glob *)
| EvBlobExists (name : pystr)           (* blob.exists() *)
| EvUploadFromFilename (name path : pystr). (* blob.upload_from_filename *)

Record World := {
  BUCKET_NAME : option pystr;           (* os.getenv("GCS_BUCKET_NAME") *)
  SOURCE_FOLDER : pystr;
  storage_client : list event -> exn + unit;
  glob : list event -> pystr -> list pystr;
  blob_exists : list event -> pystr -> pystr -> exn + bool;
  upload_from_filename : list event -> pystr -> pystr -> pystr -> exn + unit
}.

Definition slash : char := 47%N.

(** [os.path.join(a, b)] for a relative [b] (POSIX). *)
Definition path_join (a b : pystr) : pystr :=
  match rev a with
  | [] => b
  | c :: _ => if N.eqb c slash then a ++ b else a ++ [slash] ++ b
  end.

(** The characters of a string up to its first slash. *)
Fixpoint until_slash (s : pystr) : pystr :=
  match s with
  | [] => []
  | c :: s' => if N.eqb c slash then [] else c :: until_slash s'
  end.

(** [os.path.basename(p)] (POSIX): what follows the last slash. *)
Definition basename (p : pystr) : pystr := rev (until_slash (rev p)).

Section Script.
Variable w : World.

(** The [for] loop of [upload_pdfs]. *)
Fixpoint upload_loop (bucket : pystr) (pdf_files : list pystr)
  : Trace.T event unit :=
  match pdf_files with
  | [] => Trace.ret tt
  | pdf_path :: rest =>
      let filename := basename pdf_path in
      Trace.bind
        (Trace.call (EvBlobExists filename)
           (fun h => blob_exists w h bucket filename))
        (fun present : bool =>
           Trace.bind
             (if present then Trace.ret tt
              else Trace.call (EvUploadFromFilename filename pdf_path)
                     (fun h => upload_from_filename w h bucket filename
                                 pdf_path))
             (fun _ => upload_loop bucket rest))
  end.

Definition upload_pdfs : Trace.T event unit :=
  match BUCKET_NAME w with
  | None => Trace.ret tt
  | Some bucket =>
      if negb (truthy bucket) then Trace.ret tt
      else
        Trace.bind (Trace.call EvStorageClient (storage_client w))
          (fun _ =>
             let pattern := path_join (SOURCE_FOLDER w) (str "*.pdf") in
             Trace.bind
               (Trace.call (EvGlob pattern)
                  (fun h => inr (glob w h pattern)))
               (fun pdf_files =>
                  if negb (nonempty pdf_files) then Trace.ret tt
                  else upload_loop bucket pdf_files))
  end.
End Script.

(** The uploads of a history, in order: blob name and local path. *)
Fixpoint uploads (h : list event) : list (pystr * pystr) :=
  match h with
  | [] => []
  | EvUploadFromFilename name path :: h' => (name, path) :: uploads h'
  | _ :: h' => uploads h'
  end.

(** Whether a blob of that name was uploaded in a history. *)
Definition uploaded (h : list event) (name : pystr) : bool :=
  existsb (fun u => PyStr.eqb (fst u) name) (uploads h).

End index_documents.

(* ------------------------------------------------------------------ *)
(** * api/telemetry.py *)

Module telemetry.

Inductive event : Type :=
| EvLoggingClient                        (* google.cloud.logging.Client() *)
| EvSetupLogging                         (* client.setup_logging() *)
| EvSetTracerProvider                    (* TracerProvider(), set_tracer_provider *)
| EvSpanExporter (project_id : option pystr) (* CloudTraceSpanExporter(...) *)
| EvAddSpanProcessor.                    (* add_span_processor(BatchSpanProcessor(...)) *)

Record World := {
  getenv : string -> option pystr;
  logging_client : list event -> exn + unit;
  setup_logging : list event -> exn + unit;
  set_tracer_provider : list event -> exn + unit;
  span_exporter : list event -> option pystr -> exn + unit;
  add_span_processor : list event -> exn + unit
}.

(** One character of [s.lower() == "true"]: the letter in either case.  (No
    character outside ASCII lowercases to a letter of that word.) *)
Definition is_letter (lower_code : N) (c : char) : bool :=
  N.eqb c lower_code || N.eqb c (lower_code - 32).

(** [s.lower() == "true"] *)
Definition lower_is_true (s : pystr) : bool :=
  match s with
  | [a; b; c; d] =>
      is_letter 116 a && is_letter 114 b && is_letter 117 c && is_letter 101 d
  | _ => false
  end.

(** [os.getenv(name, "false").lower() == "true"] *)
Definition enabled (w : World) (name : string) : bool :=
  lower_is_true
    (match getenv w name with Some v => v | None => str "false" end).

Section Setup.
Variable w : World.

Definition cloud_logging : Trace.T event unit :=
  if enabled w "CLOUD_LOGGING_ENABLED" then
    Trace.catch
      (Trace.bind (Trace.call EvLoggingClient (logging_client w))
         (fun _ => Trace.call EvSetupLogging (setup_logging w)))
      (fun _ => Trace.ret tt)
  else Trace.ret tt.

Definition cloud_trace : Trace.T event unit :=
  if enabled w "CLOUD_TRACE_ENABLED" then
    let project_id := getenv w "GOOGLE_CLOUD_PROJECT" in
    Trace.catch
      (Trace.bind (Trace.call EvSetTracerProvider (set_tracer_provider w))
         (fun _ =>
            Trace.bind
              (Trace.call (EvSpanExporter project_id)
                 (fun h => span_exporter w h project_id))
              (fun _ => Trace.call EvAddSpanProcessor (add_span_processor w))))
      (fun _ => Trace.ret tt)
  else Trace.ret tt.

Definition setup_telemetry : Trace.T event unit :=
  Trace.bind cloud_logging (fun _ => cloud_trace).
End Setup.

(** The calls that set up Cloud Trace. *)
Definition is_trace_call (ev : event) : bool :=
  match ev with
  | EvSetTracerProvider | EvSpanExporter _ | EvAddSpanProcessor => true
  | _ => false
  end.

End telemetry.

(* ------------------------------------------------------------------ *)
(** * More sample inputs *)

Module More.

(** A result with speech, whose first label annotation has no segment. *)
Definition unlabelled : videointelligence.VideoAnnotationResults :=
  {| videointelligence.speech_transcriptions :=
       [ {| videointelligence.alternatives :=
              [ {| videointelligence.transcript := str "Best in class" |} ] |} ];
     videointelligence.text_annotations :=
       [ {| videointelligence.text := str "No. 1" |} ];
     videointelligence.segment_label_annotations :=
       [ {| videointelligence.segments := [] |} ] |}.

Definition unlabelled_response : videointelligence.AnnotateVideoResponse :=
  {| videointelligence.annotation_results := [unlabelled] |}.

Definition unlabelled_video : World :=
  Sample.world Sample.ok (inr unlabelled_response) Sample.retrieve_always
    (inr (str "{}")).

(** A clean verdict, as JSON text and as the value it denotes. *)
Definition pass_text : pystr :=
  str "{" ++ Sample.quoted "compliance_results" ++ str ":[],"
  ++ Sample.quoted "status" ++ str ":" ++ Sample.quoted "PASS" ++ str ","
  ++ Sample.quoted "final_report" ++ str ":" ++ Sample.quoted "No issue"
  ++ str "}".

Definition pass_verdict : pyval :=
  VDict [ (str "compliance_results", VList []);
          (str "status", VStr (str "PASS"));
          (str "final_report", VStr (str "No issue")) ].

Definition json_loads (s : pystr) : exn + pyval :=
  if PyStr.eqb s pass_text then inr pass_verdict else Sample.json_loads s.

Definition passing : World :=
  Sample.world Sample.ok (inr Sample.spoken) Sample.retrieve_always
    (inr pass_text).

(** A knowledge base in which nothing is found. *)
Definition no_rules : World :=
  Sample.world Sample.ok (inr Sample.spoken) (fun _ _ => inr [])
    (inr pass_text).

(** An unterminated fence. *)
Definition cut_off : pystr := str "```json{" ++ Sample.quoted "status".

(** States: no [video_id]; a URL from elsewhere; an upstream failure next to
    a transcript. *)
Definition anonymous : VideoAuditState :=
  {| video_url := Some (str "https://www.youtube.com/watch?v=dT7S75eYhcQ");
     video_id := None;
     local_file_path := None; video_metadata := None;
     transcript := None; ocr_text := None;
     compliance_results := []; final_status := None; final_report := None;
     errors := [] |}.

Definition elsewhere : VideoAuditState :=
  {| video_url := Some (str "https://vimeo.com/76979871");
     video_id := Some (str "vid_ce6c43bb");
     local_file_path := None; video_metadata := None;
     transcript := None; ocr_text := None;
     compliance_results := []; final_status := None; final_report := None;
     errors := [] |}.

Definition flagged : VideoAuditState :=
  {| video_url := None; video_id := None;
     local_file_path := None; video_metadata := None;
     transcript := Some (str "no claims here"); ocr_text := Some [];
     compliance_results := [Sample.violation];
     final_status := Some (VStr (str "FAIL"));
     final_report := Some (VStr (str "earlier report"));
     errors := [str "earlier error"] |}.

(** A world whose storage refuses the upload. *)
Definition upload_down : World :=
  {| getenv := fun name =>
       if String.eqb name "GCS_BUCKET_NAME" then Some (str "brand-videos")
       else None;
     service_init := fun _ => Sample.ok;
     ydl_download := fun _ _ _ => Sample.ok;
     upload_from_filename := fun _ _ _ _ =>
       inl (Exn "Forbidden" (str "403 Access denied"));
     path_exists := fun _ _ => true;
     os_remove := fun _ _ => Sample.ok;
     annotate := fun _ _ => inr Sample.spoken;
     llm_init := fun _ => Sample.ok;
     retriever_init := fun _ => Sample.ok;
     retriever_invoke := Sample.retrieve_always;
     llm_invoke := fun _ _ => inr (str "{}") |}.

(** A folder with two PDFs and a bucket that already holds the first. *)
Definition folder : list pystr :=
  [str "backend/data/brand.pdf"; str "backend/data/legal.pdf"].

Definition held (name : pystr) : bool := PyStr.eqb name (str "brand.pdf").

Definition bucket (upload : pystr -> exn + unit) : index_documents.World :=
  {| index_documents.BUCKET_NAME := Some (str "brand-guidelines");
     index_documents.SOURCE_FOLDER := str "backend/data";
     index_documents.storage_client := fun _ => Sample.ok;
     index_documents.glob := fun _ _ => folder;
     index_documents.blob_exists := fun h _ name =>
       inr (held name || index_documents.uploaded h name);
     index_documents.upload_from_filename := fun _ _ name _ => upload name |}.

Definition steady : index_documents.World := bucket (fun _ => Sample.ok).

Definition refusing : index_documents.World :=
  bucket (fun _ => inl (Exn "Forbidden" (str "403 Access denied"))).

(** What the code yields at these inputs. *)
Definition talk_output : Update :=
  Eval vm_compute in
    match VideoIntelligenceService.extract_data Sample.service
            {| videointelligence.annotation_results := [Sample.talk] |} with
    | inr out => out
    | inl _ => empty_update
    end.

Definition unlabelled_history : history :=
  Eval vm_compute in fst (annotate_steps unlabelled_video Sample.state0 []).

Definition demo_history : history :=
  Eval vm_compute in fst (annotate_steps Sample.working anonymous []).

Definition pass_history : history :=
  Eval vm_compute in
    fst (audit_content_node json_loads passing Sample.extracted []).

Definition pass_output : Update :=
  Eval vm_compute in
    match snd (audit_content_node json_loads passing Sample.extracted []) with
    | inr out => out
    | inl _ => empty_update
    end.

Definition steady_history : list index_documents.event :=
  Eval vm_compute in fst (index_documents.upload_pdfs steady []).

End More.

(* ================================================================== *)
(** * Properties *)

(** ** Strings *)

Lemma fence_chars : fence = [96; 96; 96]%N.
Proof. reflexivity. Qed.

Lemma char_eqb_refl (c : char) : char_eqb c c = true.
Proof. apply N.eqb_refl. Qed.

Lemma startswith_app (p s : pystr) : startswith p (p ++ s) = true.
Proof.
  induction p as [|c p IH]; simpl; [reflexivity|].
  now rewrite char_eqb_refl, IH.
Qed.

Lemma skipn_length_app {A} (p s : list A) : skipn (length p) (p ++ s) = s.
Proof. induction p; simpl; auto. Qed.

Lemma firstn_length_app {A} (p s : list A) : firstn (length p) (p ++ s) = p.
Proof. induction p; simpl; [now destruct s | congruence]. Qed.

Lemma contains_app_skip (p a s : pystr) :
  contains p (a ++ s) = false -> contains p s = false.
Proof.
  induction a as [|c a IH]; simpl; [auto|].
  intros H. apply orb_false_iff in H. tauto.
Qed.

Lemma contains_startswith (p s : pystr) :
  contains p s = false -> startswith p s = false.
Proof. destruct s; simpl; intros H; apply orb_false_iff in H; tauto. Qed.

Lemma contains_found (p a s : pystr) : contains p (a ++ p ++ s) = true.
Proof.
  induction a as [|c a IH]; simpl.
  - destruct (p ++ s) eqn:E; simpl; rewrite <- E, startswith_app; reflexivity.
  - rewrite IH. apply orb_true_r.
Qed.

(** ** The matcher on the patterns of the sources *)

Section RunEquations.
Variable R : Type.
Variables (s : pystr) (g : option pystr) (k : Re.cont R).

Lemma run_lit (l : pystr) :
  Re.run (Re.Lit l) s g k
  = if startswith l s then k (skipn (length l) s) g else None.
Proof. reflexivity. Qed.

Lemma run_seq (r1 r2 : Re.regex) :
  Re.run (Re.Seq r1 r2) s g k
  = Re.run r1 s g (fun s1 g1 => Re.run r2 s1 g1 k).
Proof. reflexivity. Qed.

Lemma run_opt (r : Re.regex) :
  Re.run (Re.Opt r) s g k = Re.orelse (Re.run r s g k) (fun _ => k s g).
Proof. reflexivity. Qed.

Lemma run_lazy_star (cls : char -> bool) :
  Re.run (Re.LazyStar cls) s g k = Re.lazy_star cls s (fun s1 => k s1 g).
Proof. reflexivity. Qed.

Lemma run_group (r : Re.regex) :
  Re.run (Re.Group r) s g k
  = Re.run r s g
      (fun s1 _ => k s1 (Some (firstn (length s - length s1) s))).
Proof. reflexivity. Qed.
End RunEquations.

Lemma lit_here R (l s : pystr) (g : option pystr) (k : Re.cont R) :
  Re.run (Re.Lit l) (l ++ s) g k = k s g.
Proof. now rewrite run_lit, startswith_app, skipn_length_app. Qed.

Lemma lit_absent R (l s : pystr) (g : option pystr) (k : Re.cont R) :
  startswith l s = false -> Re.run (Re.Lit l) s g k = None.
Proof. rewrite run_lit. now intros ->. Qed.

(** The lazy star stops at the first place where the rest of the pattern
    succeeds. *)
Lemma lazy_star_first R (a b : pystr) (k : pystr -> option R) (x : R) :
  (forall a1 a2, a = a1 ++ a2 -> a2 <> [] -> k (a2 ++ b) = None) ->
  k b = Some x ->
  Re.lazy_star Re.dot (a ++ b) k = Some x.
Proof.
  intros Hnone Hb. induction a as [|c a IH].
  - destruct b; simpl; unfold Re.orelse; now rewrite Hb.
  - assert (H0 := Hnone [] (c :: a) eq_refl ltac:(discriminate)).
    simpl in *. unfold Re.orelse at 1. rewrite H0.
    apply IH. intros a1 a2 -> Ha2. now apply (Hnone (c :: a1) a2).
Qed.

(** [search] passes over the positions at which the pattern fails. *)
Lemma search_skip (r : Re.regex) (a b : pystr) :
  (forall a1 a2, a = a1 ++ a2 -> a2 <> [] -> Re.match_at r (a2 ++ b) = None) ->
  Re.search r (a ++ b) = Re.search r b.
Proof.
  intros Hnone. induction a as [|c a IH]; [reflexivity|].
  assert (H0 := Hnone [] (c :: a) eq_refl ltac:(discriminate)).
  simpl in *. rewrite H0.
  apply IH. intros a1 a2 -> Ha2. now apply (Hnone (c :: a1) a2).
Qed.

Lemma search_here (r : Re.regex) (s : pystr) (m : Re.match_obj) :
  Re.match_at r s = Some m -> Re.search r s = Some m.
Proof. intros H. destruct s; simpl; now rewrite H. Qed.

(** No fence begins inside [a] when [a] is followed by a fence. *)
Lemma no_fence_inside (a rest : pystr) :
  contains fence (a ++ str "``") = false ->
  forall a1 a2, a = a1 ++ a2 -> a2 <> [] ->
    startswith fence (a2 ++ fence ++ rest) = false.
Proof.
  intros H a1 a2 -> Ha2.
  rewrite <- app_assoc in H. apply contains_app_skip in H.
  apply contains_startswith in H.
  destruct a2 as [|c1 [|c2 [|c3 a2]]]; [congruence| | |]; exact H.
Qed.

Lemma json_tag_absent (payload rest : pystr) :
  startswith (str "json") payload = false ->
  startswith (str "json") (payload ++ fence ++ rest) = false.
Proof.
  intros H.
  destruct payload as [|c1 [|c2 [|c3 [|c4 p]]]]; try exact H;
    cbn in *; unfold char_eqb in *;
    repeat match goal with
           | |- context [N.eqb ?x ?y] => destruct (N.eqb x y); cbn in *
           end; congruence.
Qed.

(** The pattern from the opening fence on: group 1 is what lies between the
    optional tag and the next fence. *)
Lemma fence_match (body payload post : pystr) :
  contains fence (payload ++ str "``") = false ->
  body = str "json" ++ payload
  \/ (body = payload /\ startswith (str "json") payload = false) ->
  Re.match_at FENCE_RE (fence ++ body ++ fence ++ post)
  = Some {| Re.m_rest := post; Re.m_group1 := Some payload |}.
Proof.
  intros Hin Hbody.
  assert (Hlazy : forall g,
    Re.run (Re.Seq (Re.Group (Re.LazyStar Re.dot)) (Re.Lit fence))
      (payload ++ fence ++ post) g
      (fun rest g1 => Some {| Re.m_rest := rest; Re.m_group1 := g1 |})
    = Some {| Re.m_rest := post; Re.m_group1 := Some payload |}).
  { intros g. rewrite run_seq, run_group, run_lazy_star.
    apply lazy_star_first.
    - intros a1 a2 E Ha2.
      now apply lit_absent, (no_fence_inside post Hin a1 E).
    - rewrite lit_here, !length_app.
      replace (length payload + (length fence + length post)
               - (length fence + length post))
        with (length payload) by lia.
      now rewrite firstn_length_app. }
  unfold Re.match_at, FENCE_RE.
  rewrite run_seq, lit_here, run_seq, run_opt.
  destruct Hbody as [-> | [-> Hno]].
  - rewrite <- app_assoc, lit_here, Hlazy. reflexivity.
  - rewrite lit_absent by (now apply json_tag_absent).
    unfold Re.orelse. apply Hlazy.
Qed.

(** ** Unwrapping a fenced response *)

Lemma clean_markdown_fenced (pre body payload post : pystr) :
  contains fence (pre ++ str "``") = false ->
  contains fence (payload ++ str "``") = false ->
  body = str "json" ++ payload
  \/ (body = payload /\ startswith (str "json") payload = false) ->
  clean_markdown (pre ++ fence ++ body ++ fence ++ post) = Some payload.
Proof.
  intros Hpre Hin Hbody. unfold clean_markdown.
  rewrite contains_found, search_skip.
  - now rewrite (search_here _ _ (fence_match post Hin Hbody)).
  - intros a1 a2 E Ha2. unfold Re.match_at, FENCE_RE.
    rewrite run_seq. now apply lit_absent, (no_fence_inside _ Hpre a1 E).
Qed.

Lemma clean_markdown_carried (content payload : pystr) :
  carries content payload -> clean_markdown content = Some payload.
Proof.
  intros [pre p post Hpre Hin | pre p post Hpre Hin Hno | c Hc].
  - apply clean_markdown_fenced; auto.
  - apply clean_markdown_fenced; auto.
  - unfold clean_markdown. now rewrite Hc.
Qed.

(** The extraction stops at the first fence after the opening one, also when
    that fence lies inside a JSON string of the payload. *)
Lemma clean_markdown_inner_fence :
  clean_markdown
    (str "```json{" ++ dquote ++ str "final_report" ++ dquote ++ str ":"
     ++ dquote ++ str "see ```x```" ++ dquote ++ str "}```")
  = Some (str "{" ++ dquote ++ str "final_report" ++ dquote ++ str ":"
          ++ dquote ++ str "see ").
Proof. reflexivity. Qed.

(** ** [re.sub] on a pattern [c+] *)

Section RunPattern.
Variable cls : char -> bool.
Variable repl : pystr.

Lemma greedy_star_longest R (s : pystr) (k : pystr -> option R) :
  (forall x, k x <> None) ->
  Re.greedy_star cls s k = k (skip_run cls s).
Proof.
  intros Hk. induction s as [|c s IH]; simpl; [reflexivity|].
  destruct (cls c); [|reflexivity].
  rewrite IH. unfold Re.orelse.
  destruct (k (skip_run cls s)) eqn:E; [reflexivity | now apply Hk in E].
Qed.

Lemma match_at_plus (c : char) (s : pystr) :
  Re.match_at (Re.Plus cls) (c :: s)
  = if cls c
    then Some {| Re.m_rest := skip_run cls s; Re.m_group1 := None |}
    else None.
Proof.
  unfold Re.match_at. simpl. destruct (cls c); [|reflexivity].
  now rewrite greedy_star_longest.
Qed.

Lemma length_skip_run (s : pystr) : length (skip_run cls s) <= length s.
Proof.
  induction s as [|c s IH]; simpl; [lia|].
  destruct (cls c); simpl; lia.
Qed.

Lemma sub_from_skip (r : Re.regex) (n : nat) (c : char) (s : pystr) :
  Re.sub_from r repl (S n) (c :: s) = Re.sub_from r repl n s.
Proof. reflexivity. Qed.

Lemma sub_from_plus_here (c : char) (s : pystr) :
  Re.sub_from (Re.Plus cls) repl 0 (c :: s)
  = if cls c
    then repl ++ Re.sub_from (Re.Plus cls) repl
                   (length s - length (skip_run cls s)) s
    else c :: Re.sub_from (Re.Plus cls) repl 0 s.
Proof.
  change (Re.sub_from (Re.Plus cls) repl 0 (c :: s))
    with (match Re.match_at (Re.Plus cls) (c :: s) with
          | Some m =>
              match length (c :: s) - length (Re.m_rest m) with
              | S n => repl ++ Re.sub_from (Re.Plus cls) repl n s
              | O => c :: Re.sub_from (Re.Plus cls) repl 0 s
              end
          | None => c :: Re.sub_from (Re.Plus cls) repl 0 s
          end).
  rewrite match_at_plus. destruct (cls c); [|reflexivity].
  cbn [Re.m_rest]. pose proof (length_skip_run s) as Hle.
  replace (length (c :: s) - length (skip_run cls s))
    with (S (length s - length (skip_run cls s)))
    by (change (length (c :: s)) with (S (length s)); lia).
  reflexivity.
Qed.

(** Scanning with the pattern [c+] replaces each maximal run. *)
Lemma sub_from_plus (s : pystr) :
  Re.sub_from (Re.Plus cls) repl 0 s = replace_runs cls repl false s
  /\ Re.sub_from (Re.Plus cls) repl (length s - length (skip_run cls s)) s
     = replace_runs cls repl true s.
Proof.
  induction s as [|c s [IH0 IHrun]]; [split; reflexivity|].
  assert (H0 : Re.sub_from (Re.Plus cls) repl 0 (c :: s)
               = replace_runs cls repl false (c :: s)).
  { rewrite sub_from_plus_here. simpl.
    destruct (cls c); [now rewrite IHrun | now rewrite IH0]. }
  split; [exact H0|].
  simpl skip_run. simpl replace_runs. destruct (cls c) eqn:Ec.
  - pose proof (length_skip_run s) as Hle.
    replace (length (c :: s) - length (skip_run cls s))
      with (S (length s - length (skip_run cls s)))
      by (change (length (c :: s)) with (S (length s)); lia).
    now rewrite sub_from_skip.
  - rewrite Nat.sub_diag, H0. simpl. now rewrite Ec.
Qed.

Lemma sub_plus (s : pystr) :
  Re.sub (Re.Plus cls) repl s = replace_runs cls repl false s.
Proof. apply sub_from_plus. Qed.
End RunPattern.

Lemma clean_ocr_replaces_runs (raw_ocr : pystr) :
  VideoIntelligenceService.clean_ocr raw_ocr = ocr_cleaned raw_ocr.
Proof.
  unfold VideoIntelligenceService.clean_ocr, ocr_cleaned, collapse_whitespace.
  now rewrite !sub_plus.
Qed.

(** ** The loops of [extract_data] *)

Lemma transcript_parts_from (sts : list videointelligence.SpeechTranscription)
  (parts : list pystr) :
  fold_left
    (fun parts st =>
       match videointelligence.alternatives st with
       | best :: _ => parts ++ [videointelligence.transcript best]
       | [] => parts
       end) sts parts
  = parts ++ best_alternatives sts.
Proof.
  revert parts. induction sts as [|st sts IH]; intros parts; simpl.
  - now rewrite app_nil_r.
  - rewrite IH. destruct (videointelligence.alternatives st); simpl.
    + reflexivity.
    + now rewrite <- app_assoc.
Qed.

Lemma transcript_parts_best (sts : list videointelligence.SpeechTranscription) :
  VideoIntelligenceService.transcript_parts sts = best_alternatives sts.
Proof. apply (transcript_parts_from sts []). Qed.

Lemma ocr_lines_from (tas : list videointelligence.TextAnnotation)
  (lines : list pystr) :
  fold_left (fun lines ta => lines ++ [videointelligence.text ta]) tas lines
  = lines ++ map videointelligence.text tas.
Proof.
  revert lines. induction tas as [|ta tas IH]; intros lines; simpl.
  - now rewrite app_nil_r.
  - now rewrite IH, <- app_assoc.
Qed.

Lemma ocr_lines_texts (tas : list videointelligence.TextAnnotation) :
  VideoIntelligenceService.ocr_lines tas = map videointelligence.text tas.
Proof. apply (ocr_lines_from tas []). Qed.

Lemma full_transcript_cases
  (annotations : videointelligence.VideoAnnotationResults) :
  VideoIntelligenceService.full_transcript annotations
  = if negb (truthy (speech_transcript annotations))
       && nonempty (videointelligence.text_annotations annotations)
    then ocr_cleaned (joined_ocr annotations)
    else speech_transcript annotations.
Proof.
  unfold VideoIntelligenceService.full_transcript, speech_transcript,
    joined_ocr.
  now rewrite transcript_parts_best, clean_ocr_replaces_runs.
Qed.

(** ** The monad *)

Lemma ret_run A (a : A) (h : history) : ret a h = (h, inr a).
Proof. reflexivity. Qed.

Lemma bind_ok A B (m : M A) (f : A -> M B) (h h1 : history) (a : A) :
  m h = (h1, inr a) -> bind m f h = f a h1.
Proof. unfold bind. now intros ->. Qed.

Lemma bind_raises A B (m : M A) (f : A -> M B) (h h1 : history) (e : exn) :
  m h = (h1, inl e) -> bind m f h = (h1, inl e).
Proof. unfold bind. now intros ->. Qed.

Lemma catch_ok A (body : M A) (handler : exn -> M A) (h h1 : history) (a : A) :
  body h = (h1, inr a) -> catch body handler h = (h1, inr a).
Proof. unfold catch. now intros ->. Qed.

Lemma catch_raises A (body : M A) (handler : exn -> M A) (h h1 : history)
  (e : exn) :
  body h = (h1, inl e) -> catch body handler h = handler e h1.
Proof. unfold catch. now intros ->. Qed.

Lemma call_ok A (ev : event) (oracle : history -> exn + A) (h : history)
  (a : A) :
  oracle h = inr a -> call ev oracle h = (h ++ [ev], inr a).
Proof. unfold call. now intros ->. Qed.

Lemma call_raises A (ev : event) (oracle : history -> exn + A) (h : history)
  (e : exn) :
  oracle h = inl e -> call ev oracle h = (h ++ [ev], inl e).
Proof. unfold call. now intros ->. Qed.

(** ** The Extraction node *)

(** [index_video_node] never raises. *)
Lemma index_video_node_returns (w : World) (state : VideoAuditState)
  (h : history) :
  exists h1 out, index_video_node w state h = (h1, inr out).
Proof.
  unfold index_video_node, catch, ret.
  destruct (index_steps w state h) as [h1 [e | out]]; eauto.
Qed.


(** The steps named by C2, one by one, in a world whose answers do not
    depend on the history. *)
Section IndexSteps.
Variable w : World.
Variable state : VideoAuditState.
Variable url : pystr.
Variable e : exn.
Hypothesis Hurl : video_url state = Some url.
Hypothesis Hyoutube :
  contains (str "youtube.com") url || contains (str "youtu.be") url = true.
Hypothesis Hinit : forall h, service_init w h = inr tt.

Let video_id_input : pystr :=
  match video_id state with Some v => v | None => str "vid_demo" end.
Let local_filename : pystr := str "temp_" ++ video_id_input ++ str ".mp4".

Lemma download_failure_raises (h : history) :
  ydl_download w (h ++ [EvServiceInit]) url local_filename = inl e ->
  snd (index_steps w state h)
  = inl (Exn "Exception" (str "YouTube Download Failed: " ++ str_exn e)).
Proof.
  intros Hd.
  unfold index_steps, annotate_steps, VideoIntelligenceService.init,
    VideoIntelligenceService.download_youtube_video, bind, catch, call,
    raise, ret.
  rewrite Hinit, Hurl, Hyoutube. fold video_id_input local_filename.
  now rewrite Hd.
Qed.

Hypothesis Hdownload : forall h p, ydl_download w h url p = inr tt.

Lemma upload_failure_raises (h : history) :
  (forall h' b p d, upload_from_filename w h' b d p = inl e) ->
  snd (index_steps w state h)
  = inl (Exn "Exception" (str "GCS Upload Failed: " ++ str_exn e)).
Proof.
  intros Hu.
  unfold index_steps, annotate_steps, VideoIntelligenceService.init,
    VideoIntelligenceService.download_youtube_video,
    VideoIntelligenceService.upload_video, bind, catch, call, raise, ret.
  rewrite Hinit, Hurl, Hyoutube, Hdownload. now rewrite Hu.
Qed.

Hypothesis Hupload : forall h b d p, upload_from_filename w h b d p = inr tt.
Hypothesis Hremove : forall h p, os_remove w h p = inr tt.

Lemma annotation_failure_raises (h : history) :
  (forall h' uri, annotate w h' uri = inl e) ->
  snd (index_steps w state h) = inl e.
Proof.
  intros Ha.
  unfold index_steps, annotate_steps, VideoIntelligenceService.init,
    VideoIntelligenceService.download_youtube_video,
    VideoIntelligenceService.upload_video,
    VideoIntelligenceService.annotate_video, bind, catch, call, raise, ret.
  rewrite Hinit, Hurl, Hyoutube, Hdownload, Hupload.
  destruct (path_exists w _ _); [rewrite Hremove|]; now rewrite Ha.
Qed.

Lemma extraction_failure_raises (h : history)
  (response : videointelligence.AnnotateVideoResponse) :
  (forall h' uri, annotate w h' uri = inr response) ->
  (forall self, VideoIntelligenceService.extract_data self response = inl e) ->
  snd (index_steps w state h) = inl e.
Proof.
  intros Ha He.
  unfold index_steps, annotate_steps, VideoIntelligenceService.init,
    VideoIntelligenceService.download_youtube_video,
    VideoIntelligenceService.upload_video,
    VideoIntelligenceService.annotate_video, bind, catch, call, raise, ret,
    lift.
  rewrite Hinit, Hurl, Hyoutube, Hdownload, Hupload.
  destruct (path_exists w _ _); [rewrite Hremove|]; rewrite Ha; simpl;
    now rewrite He.
Qed.
End IndexSteps.

(** A URL that is not a YouTube URL, or no URL at all, is one more way to
    fail inside the [try]. *)
Lemma invalid_url_raises (w : World) (state : VideoAuditState) (h : history) :
  service_init w h = inr tt ->
  match video_url state with
  | Some url =>
      contains (str "youtube.com") url || contains (str "youtu.be") url = false
  | None => True
  end ->
  exists e, index_steps w state h = (h ++ [EvServiceInit], inl e).
Proof.
  intros Hinit Hurl.
  unfold index_steps, annotate_steps, VideoIntelligenceService.init, bind,
    call, raise, ret.
  rewrite Hinit. destruct (video_url state) as [url|].
  - rewrite Hurl. eauto.
  - eauto.
Qed.

(** ** The Judgment node *)

Section Judgment.
Variable json_loads : pystr -> exn + pyval.
Variable w : World.
Variable state : VideoAuditState.

(** C3.  With an empty (or absent) transcript the Judgment node makes no
    external call at all, so in particular no retrieval call and no
    language-model call: the history is returned unchanged, together with
    [final_status = "FAIL"] and the report explaining that the audit was
    skipped. *)
Theorem audit_skipped_without_transcript (h : history) :
  transcript state = None \/ transcript state = Some (str "") ->
  audit_content_node json_loads w state h
  = (h,
     inr {| upd_video_url := None; upd_video_id := None;
            upd_local_file_path := None; upd_video_metadata := None;
            upd_transcript := None; upd_ocr_text := None;
            upd_compliance_results := None;
            upd_final_status := Some (VStr (str "FAIL"));
            upd_final_report :=
              Some (VStr (str "Audit skipped because video processing failed (No Transcript)."));
            upd_errors := None |}).
Proof.
  unfold audit_content_node. now intros [-> | ->].
Qed.

Variable t : pystr.
Hypothesis Htranscript : transcript state = Some t.
Hypothesis Htruthy : truthy t = true.

Lemma audit_content_node_runs (h : history) :
  audit_content_node json_loads w state h
  = bind (rag_retrieval w state t)
      (fun docs =>
         catch (audit_steps json_loads w (audit_messages state t docs))
           (fun e => ret (audit_failure e))) h.
Proof.
  unfold audit_content_node. now rewrite Htranscript, Htruthy.
Qed.

(** What the [try] makes of the answer of the model. *)
Lemma audit_try_returns (messages : LlmMessages) (h : history) :
  exists out,
    catch (audit_steps json_loads w messages)
      (fun e => ret (audit_failure e)) h
    = (h ++ [EvLlmInvoke messages], inr out).
Proof.
  unfold catch, audit_steps, bind, call, lift, ret.
  destruct (llm_invoke w h messages) as [e | content]; [eauto|].
  destruct (parse_response json_loads content); eauto.
Qed.

(** A failure of the model call, or of the parsing of its answer, is
    caught. *)
Lemma inference_failure_caught (messages : LlmMessages) (h : history)
  (e : exn) :
  llm_invoke w h messages = inl e ->
  catch (audit_steps json_loads w messages)
    (fun e => ret (audit_failure e)) h
  = (h ++ [EvLlmInvoke messages], inr (audit_failure e)).
Proof.
  intros H. unfold catch, audit_steps, bind, call. now rewrite H.
Qed.

(** A failure of the retrieval happens before the [try]: it leaves the
    node as an exception. *)
Lemma retrieval_failure_escapes (h : history) (e : exn) :
  llm_init w h = inr tt ->
  retriever_init w (h ++ [EvLlmInit]) = inr tt ->
  retriever_invoke w ((h ++ [EvLlmInit]) ++ [EvRetrieverInit])
    (primary_query state t) = inl e ->
  audit_content_node json_loads w state h
  = (((h ++ [EvLlmInit]) ++ [EvRetrieverInit])
       ++ [EvRetrieve (primary_query state t)],
     inl e).
Proof.
  intros Hl Hr Hq. rewrite audit_content_node_runs.
  unfold rag_retrieval, bind, call. fold (primary_query state t).
  now rewrite Hl, Hr, Hq.
Qed.

(** C7.  With a non-empty transcript, once the two clients are built the
    primary query (transcript, a space, the OCR lines joined by spaces) is
    sent to the retriever.  If it returns no document, the fixed fallback
    query is sent exactly once, immediately after and before anything
    else; if it returns at least one document, no fallback call is made.
    Nothing that follows is a retrieval call. *)
Theorem fallback_query_issued_once (h : history) (docs : list Document) :
  llm_init w h = inr tt ->
  retriever_init w (h ++ [EvLlmInit]) = inr tt ->
  retriever_invoke w ((h ++ [EvLlmInit]) ++ [EvRetrieverInit])
    (primary_query state t) = inr docs ->
  exists (rest : history) (result : exn + Update),
    audit_content_node json_loads w state h
    = (h ++ [EvLlmInit; EvRetrieverInit; EvRetrieve (primary_query state t)]
         ++ (if nonempty docs then [] else [EvRetrieve FALLBACK_QUERY])
         ++ rest,
       result)
    /\ retrievals rest = [].
Proof.
  intros Hl Hr Hq. rewrite audit_content_node_runs.
  unfold rag_retrieval, bind at 1 2 3 4, call.
  fold (primary_query state t). rewrite Hl, Hr, Hq.
  destruct docs as [|d docs]; cbn [nonempty negb]; cbv beta.
  - match goal with
    | |- context [retriever_invoke w ?hh FALLBACK_QUERY] =>
        destruct (retriever_invoke w hh FALLBACK_QUERY) as [e | docs2]
    end.
    + exists [], (inl e). split; [|reflexivity].
      now rewrite <- !app_assoc.
    + destruct (audit_try_returns (audit_messages state t docs2)
                  ((((h ++ [EvLlmInit]) ++ [EvRetrieverInit])
                      ++ [EvRetrieve (primary_query state t)])
                     ++ [EvRetrieve FALLBACK_QUERY])) as [out Hout].
      exists [EvLlmInvoke (audit_messages state t docs2)], (inr out).
      split; [|reflexivity]. rewrite Hout. now rewrite <- !app_assoc.
  - rewrite ret_run.
    destruct (audit_try_returns (audit_messages state t (d :: docs))
                (((h ++ [EvLlmInit]) ++ [EvRetrieverInit])
                   ++ [EvRetrieve (primary_query state t)])) as [out Hout].
    exists [EvLlmInvoke (audit_messages state t (d :: docs))], (inr out).
    split; [|reflexivity]. rewrite Hout. now rewrite <- !app_assoc.
Qed.

Lemma dict_get_missing (items : list (pystr * pyval)) (key : pystr)
  (default : pyval) :
  dict_has items key = false -> dict_get items key default = default.
Proof.
  induction items as [|[k v] items IH]; simpl; [reflexivity|].
  intros H. apply orb_false_iff in H. destruct H as [-> H]. auto.
Qed.

(** C9.  When the answer of the model parses as a JSON object, the node
    returns the dict built from it, in which a missing ["status"] gives
    [final_status = "FAIL"], a missing ["final_report"] gives the report
    "No report generated.", and a missing ["compliance_results"] gives an
    empty list. *)
Theorem missing_keys_take_defaults (h h1 : history) (docs : list Document)
  (content : pystr) (items : list (pystr * pyval)) :
  rag_retrieval w state t h = (h1, inr docs) ->
  llm_invoke w h1 (audit_messages state t docs) = inr content ->
  load_response json_loads content = inr (VDict items) ->
  exists out,
    audit_content_node json_loads w state h
    = (h1 ++ [EvLlmInvoke (audit_messages state t docs)], inr out)
    /\ upd_errors out = None
    /\ (dict_has items (str "status") = false ->
        upd_final_status out = Some (VStr (str "FAIL")))
    /\ (dict_has items (str "final_report") = false ->
        upd_final_report out = Some (VStr (str "No report generated.")))
    /\ (dict_has items (str "compliance_results") = false ->
        upd_compliance_results out = Some (VList [])).
Proof.
  intros Hrag Hllm Hload. exists (audit_result items).
  split; [|split; [reflexivity|]].
  - rewrite audit_content_node_runs. unfold bind at 1. rewrite Hrag.
    unfold catch, audit_steps, bind, call, lift, parse_response.
    now rewrite Hllm, Hload.
  - unfold audit_result; simpl.
    repeat split; intros H; now rewrite dict_get_missing.
Qed.
End Judgment.

(** ** [extract_data] *)

Section Extraction.
Variable self : VideoIntelligenceService.t.
Variable annotations : videointelligence.VideoAnnotationResults.
Variable others : list videointelligence.VideoAnnotationResults.

Let response : videointelligence.AnnotateVideoResponse :=
  {| videointelligence.annotation_results := annotations :: others |}.

(** [extract_data] returns exactly when the duration estimate does, and
    then its transcript is [full_transcript]. *)
Lemma extract_data_returns (duration : pyval) :
  VideoIntelligenceService.duration_sec annotations = inr duration ->
  exists out,
    VideoIntelligenceService.extract_data self response = inr out
    /\ upd_transcript out
       = Some (VideoIntelligenceService.full_transcript annotations)
    /\ upd_ocr_text out
       = Some (map videointelligence.text
                 (videointelligence.text_annotations annotations))
    /\ upd_errors out = None /\ upd_final_status out = None.
Proof.
  intros Hd. unfold VideoIntelligenceService.extract_data, response.
  cbn [videointelligence.annotation_results]. rewrite Hd.
  eexists. split; [reflexivity|]. cbn.
  now rewrite ocr_lines_texts.
Qed.

Lemma extract_data_raises (e : exn) :
  VideoIntelligenceService.duration_sec annotations = inl e ->
  VideoIntelligenceService.extract_data self response = inl e.
Proof.
  intros Hd. unfold VideoIntelligenceService.extract_data, response.
  cbn [videointelligence.annotation_results]. now rewrite Hd.
Qed.

(** C6 (as amended).  When the first annotation result has text
    annotations and its speech transcript is empty, then, whenever
    [extract_data] returns, the transcript is the space-joined OCR text in
    which every run of non-ASCII characters is replaced by one space, runs
    of whitespace are collapsed to single spaces, and both ends are
    trimmed. *)
Theorem ocr_fallback_transcript (duration : pyval) :
  videointelligence.text_annotations annotations <> [] ->
  speech_transcript annotations = str "" ->
  VideoIntelligenceService.duration_sec annotations = inr duration ->
  exists out,
    VideoIntelligenceService.extract_data self response = inr out
    /\ upd_transcript out = Some (ocr_cleaned (joined_ocr annotations)).
Proof.
  intros Htext Hspeech Hd.
  destruct (extract_data_returns Hd) as (out & Hout & Htr & _).
  exists out. split; [exact Hout|].
  rewrite Htr, full_transcript_cases, Hspeech.
  destruct (videointelligence.text_annotations annotations);
    [congruence | reflexivity].
Qed.

(** C8 (as amended).  Whenever [extract_data] returns, and unless the OCR
    fallback applies (the trimmed string is empty and there are text
    annotations), the transcript is the space-joined concatenation, in
    segment order, of the first alternative's transcript of each speech
    segment that has an alternative, trimmed of surrounding whitespace. *)
Theorem speech_transcript_extracted (duration : pyval) :
  speech_transcript annotations <> str ""
  \/ videointelligence.text_annotations annotations = [] ->
  VideoIntelligenceService.duration_sec annotations = inr duration ->
  exists out,
    VideoIntelligenceService.extract_data self response = inr out
    /\ upd_transcript out = Some (speech_transcript annotations).
Proof.
  intros Hcase Hd.
  destruct (extract_data_returns Hd) as (out & Hout & Htr & _).
  exists out. split; [exact Hout|].
  rewrite Htr, full_transcript_cases.
  destruct Hcase as [Hne | ->].
  - destruct (speech_transcript annotations); [now contradiction Hne|].
    reflexivity.
  - now rewrite andb_false_r.
Qed.
End Extraction.

(** C6, as stated, fails on an OCR block in which a non-ASCII character
    stands between two words: the code puts a space where the specification
    removes the character. *)
Lemma ocr_fallback_keeps_word_break :
  exists out,
    VideoIntelligenceService.extract_data Sample.service
      {| videointelligence.annotation_results := [Sample.ocr_only] |}
    = inr out
    /\ upd_transcript out = Some (str "SALE NOW")
    /\ ocr_cleaned_as_specified (joined_ocr Sample.ocr_only) = str "SALENOW"
    /\ upd_transcript out
       <> Some (ocr_cleaned_as_specified (joined_ocr Sample.ocr_only)).
Proof.
  eexists. split; [reflexivity|]. repeat split. discriminate.
Qed.

(** C8, as stated, fails on a video whose only speech segment is empty while
    OCR text is present: the transcript is the OCR text. *)
Lemma empty_speech_gives_ocr_text :
  videointelligence.speech_transcriptions Sample.silent_segment <> []
  /\ speech_transcript Sample.silent_segment = str ""
  /\ exists out,
       VideoIntelligenceService.extract_data Sample.service
         {| videointelligence.annotation_results := [Sample.silent_segment] |}
       = inr out
       /\ upd_transcript out = Some (str "SALE")
       /\ upd_transcript out <> Some (speech_transcript Sample.silent_segment).
Proof.
  split; [discriminate|]. split; [reflexivity|].
  eexists. split; [reflexivity|]. split; [reflexivity | discriminate].
Qed.

(** C10.  When the annotation response has no annotation result,
    [extract_data] returns (it does not raise) the dict with
    [transcript = ""] and [ocr_text = []] and nothing else, and so does the
    Extraction node: no [errors] entry and no [final_status]. *)
Theorem empty_annotation_results_extracted (w : World)
  (state : VideoAuditState) (h h1 : history)
  (self : VideoIntelligenceService.t)
  (response : videointelligence.AnnotateVideoResponse) :
  annotate_steps w state h = (h1, inr (self, response)) ->
  videointelligence.annotation_results response = [] ->
  let extracted :=
    {| upd_video_url := None; upd_video_id := None;
       upd_local_file_path := None; upd_video_metadata := None;
       upd_transcript := Some (str ""); upd_ocr_text := Some [];
       upd_compliance_results := None; upd_final_status := None;
       upd_final_report := None; upd_errors := None |} in
  VideoIntelligenceService.extract_data self response = inr extracted
  /\ index_video_node w state h = (h1, inr extracted).
Proof.
  intros Hsteps Hempty extracted.
  assert (He : VideoIntelligenceService.extract_data self response
               = inr extracted).
  { unfold VideoIntelligenceService.extract_data. now rewrite Hempty. }
  split; [exact He|].
  unfold index_video_node, catch, index_steps, bind at 1. rewrite Hsteps.
  unfold bind, lift. cbn [fst snd]. now rewrite He.
Qed.

(** With such an output merged into the state, the Judgment node finds an
    empty transcript and stops at its own check. *)
Lemma empty_extraction_reaches_judgment (json_loads : pystr -> exn + pyval)
  (w : World) (s0 s1 : VideoAuditState) (h : history) :
  apply_writes s0
    {| upd_video_url := None; upd_video_id := None;
       upd_local_file_path := None; upd_video_metadata := None;
       upd_transcript := Some (str ""); upd_ocr_text := Some [];
       upd_compliance_results := None; upd_final_status := None;
       upd_final_report := None; upd_errors := None |} = inr s1 ->
  final_status s1 = final_status s0
  /\ errors s1 = errors s0
  /\ audit_content_node json_loads w s1 h = (h, inr audit_skipped).
Proof.
  unfold apply_writes. cbn. intros [= <-]. cbn.
  repeat split. now rewrite app_nil_r.
Qed.

(** ** The fence and the parser *)

(** C5 (as amended).  When the payload sits in the first code fence of the
    response (tagged [json] or not) and no triple backtick begins inside
    the payload, the parser is applied to the payload, trimmed; a response
    without triple backticks is parsed as it is, trimmed. *)
Theorem fenced_payload_is_parsed (json_loads : pystr -> exn + pyval)
  (content payload : pystr) :
  carries content payload ->
  clean_markdown content = Some payload
  /\ load_response json_loads content = json_loads (strip payload).
Proof.
  intros H. apply clean_markdown_carried in H.
  split; [exact H|]. unfold load_response. now rewrite H.
Qed.

(** C5, as stated, fails on a fenced JSON object one of whose strings
    contains a triple backtick: the extraction stops there, and what is
    parsed is a truncated text. *)
Lemma fenced_payload_truncated_at_inner_fence :
  clean_markdown (fence ++ str "json" ++ Sample.payload_with_fence ++ fence)
  = Some (str "{" ++ dquote ++ str "final_report" ++ dquote ++ str ":"
          ++ dquote ++ str "see ")
  /\ clean_markdown (fence ++ str "json" ++ Sample.payload_with_fence ++ fence)
     <> Some Sample.payload_with_fence.
Proof. split; [reflexivity | discriminate]. Qed.

(** ** A retrieval failure *)

(** C4: the code does not do what the claim says.  With a transcript
    present and the search backend down, [audit_content_node] does not
    return a dict: the exception of [retriever.invoke], raised before the
    [try], leaves the node, and the run of the graph ends with it. *)
Theorem audit_content_node_retrieval_failure_escapes :
  audit_content_node Sample.json_loads Sample.search_down Sample.extracted []
  = ([EvLlmInit; EvRetrieverInit; EvRetrieve (str "no claims here ")],
     inl (Exn "ServiceUnavailable" (str "503 Search backend unavailable")))
  /\ snd (invoke Sample.json_loads Sample.search_down Sample.inputs [])
     = inl (Exn "ServiceUnavailable" (str "503 Search backend unavailable")).
Proof. split; reflexivity. Qed.

(** The sibling node catches the failure of every one of its calls. *)
Lemma index_video_node_download_failure_caught :
  index_video_node Sample.download_down Sample.state0 []
  = ([EvServiceInit;
      EvDownload (str "https://youtu.be/dT7S75eYhcQ")
        (str "temp_vid_ce6c43bb.mp4")],
     inr (index_failure
            (Exn "Exception"
               (str "YouTube Download Failed: 504 Deadline Exceeded")))).
Proof. reflexivity. Qed.

(** ** The merge of node outputs *)

(** One merge step: the two accumulated lists grow by what the dict holds,
    every other key keeps its value unless the dict has it. *)
Lemma apply_writes_fields (s s' : VideoAuditState) (u : Update) :
  apply_writes s u = inr s' ->
  compliance_results s' = compliance_results s ++ results_of u
  /\ errors s' = errors s ++ errors_of u
  /\ video_url s' = last_value (video_url s) (upd_video_url u)
  /\ video_id s' = last_value (video_id s) (upd_video_id u)
  /\ local_file_path s'
     = last_value (local_file_path s) (upd_local_file_path u)
  /\ video_metadata s' = last_value (video_metadata s) (upd_video_metadata u)
  /\ transcript s' = last_value (transcript s) (upd_transcript u)
  /\ ocr_text s' = last_value (ocr_text s) (upd_ocr_text u)
  /\ final_status s' = last_value (final_status s) (upd_final_status u)
  /\ final_report s' = last_value (final_report s) (upd_final_report u).
Proof.
  unfold apply_writes, results_of, errors_of.
  destruct (upd_compliance_results u) as [[| | | | | l |]|]; cbn;
    intros H; try discriminate H; injection H as <-; cbn;
    rewrite ?app_nil_r; repeat split.
Qed.

(** The merge succeeds whenever the dict holds a list, or nothing, under
    [compliance_results]. *)
Lemma apply_writes_returns (s : VideoAuditState) (u : Update) :
  upd_compliance_results u = None
  \/ (exists l, upd_compliance_results u = Some (VList l)) ->
  exists s', apply_writes s u = inr s'.
Proof.
  unfold apply_writes. intros [-> | [l ->]]; cbn; eauto.
Qed.

Lemma last_written_three {A} (field : Update -> option A) (a b c : Update) :
  last_value (last_value (last_value None (field a)) (field b)) (field c)
  = last_written field [a; b; c].
Proof.
  cbn. destruct (field c), (field b), (field a); reflexivity.
Qed.

(** C1.  In every run of the pipeline that yields a final state, with
    [out1] and [out2] the dicts returned by the two nodes: the final
    [compliance_results] is the concatenation of the entries of the initial
    inputs, of [out1] and of [out2], the final [errors] likewise, so no
    entry produced by either node is lost or overwritten; and every other
    field holds the value of the most recent of these writes that has the
    field. *)
Theorem accumulated_lists_and_last_writes
  (json_loads : pystr -> exn + pyval) (w : World) (inputs : Update)
  (h h2 : history) (final : VideoAuditState) :
  invoke json_loads w inputs h = (h2, inr final) ->
  exists (s0 s1 : VideoAuditState) (h1 : history) (out1 out2 : Update),
    apply_writes initial_state inputs = inr s0
    /\ index_video_node w s0 h = (h1, inr out1)
    /\ apply_writes s0 out1 = inr s1
    /\ audit_content_node json_loads w s1 h1 = (h2, inr out2)
    /\ compliance_results final
       = results_of inputs ++ results_of out1 ++ results_of out2
    /\ errors final = errors_of inputs ++ errors_of out1 ++ errors_of out2
    /\ (forall entry, In entry (results_of out1 ++ results_of out2) ->
          In entry (compliance_results final))
    /\ (forall entry, In entry (errors_of out1 ++ errors_of out2) ->
          In entry (errors final))
    /\ video_url final = last_written upd_video_url [inputs; out1; out2]
    /\ video_id final = last_written upd_video_id [inputs; out1; out2]
    /\ local_file_path final
       = last_written upd_local_file_path [inputs; out1; out2]
    /\ video_metadata final
       = last_written upd_video_metadata [inputs; out1; out2]
    /\ transcript final = last_written upd_transcript [inputs; out1; out2]
    /\ ocr_text final = last_written upd_ocr_text [inputs; out1; out2]
    /\ final_status final
       = last_written upd_final_status [inputs; out1; out2]
    /\ final_report final
       = last_written upd_final_report [inputs; out1; out2].
Proof.
  unfold invoke, bind, lift. intros Hrun.
  destruct (apply_writes initial_state inputs) as [e | s0] eqn:H0;
    [discriminate|].
  destruct (index_video_node w s0 h) as [h1 [e | out1]] eqn:Hn1;
    [discriminate|].
  destruct (apply_writes s0 out1) as [e | s1] eqn:H1; [discriminate|].
  destruct (audit_content_node json_loads w s1 h1) as [h2' [e | out2]] eqn:Hn2;
    [discriminate|].
  destruct (apply_writes s1 out2) as [e | s2] eqn:H2; [discriminate|].
  injection Hrun as <- <-.
  exists s0, s1, h1, out1, out2.
  destruct (apply_writes_fields _ _ H0)
    as (R0 & E0 & A0 & B0 & C0 & D0 & F0 & G0 & I0 & J0).
  destruct (apply_writes_fields _ _ H1)
    as (R1 & E1 & A1 & B1 & C1 & D1 & F1 & G1 & I1 & J1).
  destruct (apply_writes_fields _ _ H2)
    as (R2 & E2 & A2 & B2 & C2 & D2 & F2 & G2 & I2 & J2).
  assert (HR : compliance_results s2
               = results_of inputs ++ results_of out1 ++ results_of out2).
  { rewrite R2, R1, R0. cbn. now rewrite <- app_assoc. }
  assert (HE : errors s2
               = errors_of inputs ++ errors_of out1 ++ errors_of out2).
  { rewrite E2, E1, E0. cbn. now rewrite <- app_assoc. }
  repeat match goal with |- _ /\ _ => split end; try reflexivity;
    try assumption.
  - intros entry Hin. rewrite HR. apply in_or_app. now right.
  - intros entry Hin. rewrite HE. apply in_or_app. now right.
  - rewrite A2, A1, A0. apply last_written_three.
  - rewrite B2, B1, B0. apply last_written_three.
  - rewrite C2, C1, C0. apply last_written_three.
  - rewrite D2, D1, D0. apply last_written_three.
  - rewrite F2, F1, F0. apply last_written_three.
  - rewrite G2, G1, G0. apply last_written_three.
  - rewrite I2, I1, I0. apply last_written_three.
  - rewrite J2, J1, J0. apply last_written_three.
Qed.

(** The pipeline yields a final state as soon as the Judgment node returns
    a dict whose [compliance_results], if any, is a list. *)
Lemma invoke_returns (json_loads : pystr -> exn + pyval) (w : World)
  (inputs : Update) (s0 s1 : VideoAuditState) (h h1 h2 : history)
  (out1 out2 : Update) :
  apply_writes initial_state inputs = inr s0 ->
  index_video_node w s0 h = (h1, inr out1) ->
  apply_writes s0 out1 = inr s1 ->
  audit_content_node json_loads w s1 h1 = (h2, inr out2) ->
  upd_compliance_results out2 = None
  \/ (exists l, upd_compliance_results out2 = Some (VList l)) ->
  exists final, invoke json_loads w inputs h = (h2, inr final).
Proof.
  intros H0 Hn1 H1 Hn2 Hlist.
  destruct (apply_writes_returns s1 out2 Hlist) as [s2 H2].
  exists s2. unfold invoke, bind, lift. now rewrite H0, Hn1, H1, Hn2, H2.
Qed.

(* ------------------------------------------------------------------ *)
(** * The statements at sample inputs *)

Lemma accumulated_lists_and_last_writes_witness :
  exists (h2 : history) (final : VideoAuditState),
    invoke Sample.json_loads Sample.judging Sample.inputs [] = (h2, inr final)
    /\ compliance_results final = [Sample.violation]
    /\ exists (s0 s1 : VideoAuditState) (h1 : history) (out1 out2 : Update),
         index_video_node Sample.judging s0 [] = (h1, inr out1)
         /\ audit_content_node Sample.json_loads Sample.judging s1 h1
            = (h2, inr out2)
         /\ compliance_results final
            = results_of Sample.inputs ++ results_of out1 ++ results_of out2
         /\ errors final
            = errors_of Sample.inputs ++ errors_of out1 ++ errors_of out2.
Proof.
  eexists _, _. split; [vm_compute; reflexivity|].
  split; [reflexivity|].
  destruct (@accumulated_lists_and_last_writes Sample.json_loads
              Sample.judging Sample.inputs [] _ _ eq_refl)
    as (s0 & s1 & h1 & out1 & out2 & H0 & Hn1 & H1 & Hn2 & HR & HE & _).
  exists s0, s1, h1, out1, out2. auto.
Defined.


Lemma audit_skipped_without_transcript_witness :
  (transcript Sample.nothing_extracted = None
   \/ transcript Sample.nothing_extracted = Some (str ""))
  /\ audit_content_node Sample.json_loads Sample.working
       Sample.nothing_extracted [EvServiceInit]
     = ([EvServiceInit], inr audit_skipped).
Proof.
  split; [right; reflexivity|].
  apply (@audit_skipped_without_transcript Sample.json_loads Sample.working
           Sample.nothing_extracted [EvServiceInit]).
  right; reflexivity.
Defined.

Lemma fallback_query_issued_once_witness :
  exists (rest : history) (result : exn + Update),
    audit_content_node Sample.json_loads Sample.working Sample.extracted []
    = ([EvLlmInit; EvRetrieverInit; EvRetrieve (str "no claims here ");
        EvRetrieve FALLBACK_QUERY] ++ rest, result)
    /\ retrievals rest = [].
Proof.
  apply (@fallback_query_issued_once Sample.json_loads Sample.working
           Sample.extracted (str "no claims here") eq_refl eq_refl [] []);
    reflexivity.
Defined.

Lemma missing_keys_take_defaults_witness :
  exists out,
    audit_content_node Sample.json_loads Sample.working Sample.extracted []
    = ([EvLlmInit; EvRetrieverInit; EvRetrieve (str "no claims here ");
        EvRetrieve FALLBACK_QUERY;
        EvLlmInvoke
          (audit_messages Sample.extracted (str "no claims here")
             [Sample.doc])],
       inr out)
    /\ upd_final_status out = Some (VStr (str "FAIL"))
    /\ upd_final_report out = Some (VStr (str "No report generated."))
    /\ upd_compliance_results out = Some (VList []).
Proof.
  destruct (@missing_keys_take_defaults Sample.json_loads Sample.working
              Sample.extracted (str "no claims here") eq_refl eq_refl
              []
              [EvLlmInit; EvRetrieverInit; EvRetrieve (str "no claims here ");
               EvRetrieve FALLBACK_QUERY]
              [Sample.doc] (str "```json{}```") [])
    as (out & Hout & _ & Hs & Hr & Hc); try reflexivity.
  exists out. split; [exact Hout|].
  split; [apply Hs; reflexivity|].
  split; [apply Hr; reflexivity | apply Hc; reflexivity].
Defined.

Lemma empty_annotation_results_extracted_witness :
  exists h1,
    annotate_steps Sample.blank_video Sample.state0 []
    = (h1, inr (Sample.service, Sample.nothing_annotated))
    /\ index_video_node Sample.blank_video Sample.state0 []
       = (h1,
          inr {| upd_video_url := None; upd_video_id := None;
                 upd_local_file_path := None; upd_video_metadata := None;
                 upd_transcript := Some (str ""); upd_ocr_text := Some [];
                 upd_compliance_results := None; upd_final_status := None;
                 upd_final_report := None; upd_errors := None |}).
Proof.
  eexists. split; [reflexivity|].
  apply (@empty_annotation_results_extracted Sample.blank_video Sample.state0
           [] _ Sample.service Sample.nothing_annotated); reflexivity.
Defined.

Lemma ocr_fallback_transcript_witness :
  exists out,
    VideoIntelligenceService.extract_data Sample.service
      {| videointelligence.annotation_results := [Sample.ocr_only] |}
    = inr out
    /\ upd_transcript out = Some (str "SALE NOW").
Proof.
  apply (@ocr_fallback_transcript Sample.service Sample.ocr_only []
           (VInt 0)).
  - discriminate.
  - reflexivity.
  - reflexivity.
Defined.

Lemma speech_transcript_extracted_witness :
  exists out,
    VideoIntelligenceService.extract_data Sample.service
      {| videointelligence.annotation_results := [Sample.talk] |}
    = inr out
    /\ upd_transcript out = Some (str "Buy now. It works!").
Proof.
  apply (@speech_transcript_extracted Sample.service Sample.talk []
           (VFloat (Qmake 12500000 1000000))).
  - left. discriminate.
  - reflexivity.
Defined.

Lemma fenced_payload_is_parsed_witness :
  carries
    (str "Here is the audit: " ++ fence
     ++ (str "json" ++ (newline ++ Sample.verdict_text ++ newline))
     ++ fence ++ str " Done.")
    (newline ++ Sample.verdict_text ++ newline)
  /\ load_response Sample.json_loads
       (str "Here is the audit: " ++ fence
        ++ (str "json" ++ (newline ++ Sample.verdict_text ++ newline))
        ++ fence ++ str " Done.")
     = inr Sample.verdict.
Proof.
  assert (H : carries
    (str "Here is the audit: " ++ fence
     ++ (str "json" ++ (newline ++ Sample.verdict_text ++ newline))
     ++ fence ++ str " Done.")
    (newline ++ Sample.verdict_text ++ newline)).
  { apply carries_tagged; reflexivity. }
  split; [exact H|].
  rewrite (proj2 (@fenced_payload_is_parsed Sample.json_loads _ _ H)).
  reflexivity.
Defined.

(* ================================================================== *)
(** * Further properties of the code *)

(** ** [str.strip] *)

Lemma lstrip_idempotent (s : pystr) : lstrip (lstrip s) = lstrip s.
Proof.
  induction s as [|c s IH]; simpl; [reflexivity|].
  destruct (isspace c) eqn:E; [exact IH | simpl; now rewrite E].
Qed.

Lemma lstrip_head (s : pystr) :
  lstrip s = [] \/ exists c r, lstrip s = c :: r /\ isspace c = false.
Proof.
  induction s as [|c s IH]; simpl; [now left|].
  destruct (isspace c) eqn:E; [exact IH | right; eauto].
Qed.

Lemma lstrip_suffix (s : pystr) : exists z, s = z ++ lstrip s.
Proof.
  induction s as [|c s [z IH]]; simpl; [now exists []|].
  destruct (isspace c).
  - exists (c :: z). simpl. now rewrite <- IH.
  - now exists [].
Qed.

Lemma lstrip_snoc (l : pystr) (c : char) :
  isspace c = false -> lstrip (l ++ [c]) = lstrip l ++ [c].
Proof.
  intros Hc. induction l as [|x l IH]; simpl.
  - now rewrite Hc.
  - destruct (isspace x); [exact IH | reflexivity].
Qed.

Lemma rstrip_cons (c : char) (r : pystr) :
  isspace c = false -> rstrip (c :: r) = c :: rstrip r.
Proof.
  intros Hc. unfold rstrip. simpl rev.
  now rewrite lstrip_snoc, rev_unit.
Qed.

Lemma rstrip_prefix (s : pystr) : exists z, s = rstrip s ++ z.
Proof.
  unfold rstrip. destruct (lstrip_suffix (rev s)) as [z Hz].
  exists (rev z). rewrite <- rev_app_distr, <- Hz. now rewrite rev_involutive.
Qed.

Lemma rstrip_idempotent (s : pystr) : rstrip (rstrip s) = rstrip s.
Proof.
  unfold rstrip. now rewrite rev_involutive, lstrip_idempotent.
Qed.

Lemma lstrip_strip (s : pystr) : lstrip (strip s) = strip s.
Proof.
  unfold strip. destruct (lstrip_head s) as [-> | (c & r & -> & Hc)].
  - reflexivity.
  - rewrite rstrip_cons by exact Hc. simpl. now rewrite Hc.
Qed.

Lemma strip_idempotent (s : pystr) : strip (strip s) = strip s.
Proof.
  unfold strip at 1. rewrite lstrip_strip. unfold strip.
  apply rstrip_idempotent.
Qed.

(** A stripped string is an infix of the original. *)
Lemma strip_infix (s : pystr) : exists z1 z2, s = z1 ++ strip s ++ z2.
Proof.
  destruct (lstrip_suffix s) as [z1 H1].
  destruct (rstrip_prefix (lstrip s)) as [z2 H2].
  exists z1, z2. unfold strip. now rewrite <- H2.
Qed.

Lemma strip_first (s : pystr) (c : char) (r : pystr) :
  strip s = c :: r -> isspace c = false.
Proof.
  intros H. pose proof (lstrip_strip s) as Hl. rewrite H in Hl.
  simpl in Hl. destruct (isspace c) eqn:E; [|reflexivity].
  destruct (lstrip_suffix r) as [z Hz]. rewrite Hl in Hz.
  apply (f_equal (@length _)) in Hz. rewrite length_app in Hz.
  simpl in Hz. lia.
Qed.

Lemma strip_last (s : pystr) (c : char) (r : pystr) :
  strip s = r ++ [c] -> isspace c = false.
Proof.
  unfold strip, rstrip. intros H.
  apply (f_equal (@rev _)) in H. rewrite rev_involutive, rev_unit in H.
  destruct (lstrip_head (rev (lstrip s))) as [E | (c' & r' & E & Hc)];
    rewrite E in H; [discriminate | congruence].
Qed.

Lemma strip_keeps (s : pystr) (c : char) :
  In c s -> isspace c = false -> In c (strip s).
Proof.
  assert (Hl : forall t, In c t -> isspace c = false -> In c (lstrip t)).
  { intros t Hin Hc. induction t as [|x t IH]; simpl; [easy|].
    destruct Hin as [-> | Hin]; [now rewrite Hc; left|].
    destruct (isspace x); [auto | now right]. }
  intros Hin Hc. unfold strip, rstrip.
  rewrite <- in_rev. apply Hl; [|exact Hc]. rewrite <- in_rev. now apply Hl.
Qed.

Lemma strip_whitespace (s : pystr) :
  (forall c, In c s -> isspace c = true) -> strip s = [].
Proof.
  intros H. assert (Hl : lstrip s = []).
  { induction s as [|c s IH]; simpl; [reflexivity|].
    rewrite (H c (or_introl eq_refl)). apply IH. intros x Hx. apply H.
    now right. }
  unfold strip. now rewrite Hl.
Qed.

(** ** Replacing runs *)

Section Runs.
Variable cls : char -> bool.
Variable repl : pystr.

Lemma replace_runs_in (b : bool) (s : pystr) (c : char) :
  In c (replace_runs cls repl b s) ->
  In c repl \/ (In c s /\ cls c = false).
Proof.
  revert b. induction s as [|x s IH]; intros b; simpl; [easy|].
  destruct (cls x) eqn:E.
  - destruct b.
    + intros H. destruct (IH _ H) as [|[]]; auto.
    + intros H. apply in_app_or in H. destruct H as [H | H]; [now left|].
      destruct (IH _ H) as [|[]]; auto.
  - intros [<- | H]; [auto|]. destruct (IH _ H) as [|[]]; auto.
Qed.

Lemma replace_runs_keeps (b : bool) (s : pystr) (c : char) :
  In c s -> cls c = false -> In c (replace_runs cls repl b s).
Proof.
  intros Hin Hc. revert b. induction s as [|x s IH]; intros b; [easy|].
  simpl. destruct Hin as [-> | Hin].
  - rewrite Hc. now left.
  - destruct (cls x); [destruct b|]; auto using in_or_app, in_cons.
Qed.

(** A string without a character of the class is left as it is. *)
Lemma replace_runs_none (s : pystr) :
  (forall c, In c s -> cls c = false) ->
  replace_runs cls repl false s = s.
Proof.
  induction s as [|x s IH]; intros H; simpl; [reflexivity|].
  rewrite (H x (or_introl eq_refl)). f_equal. apply IH. intros c Hc.
  apply H. now right.
Qed.
End Runs.

Lemma single_spaced_weaken (s : pystr) :
  single_spaced true s = true -> single_spaced false s = true.
Proof.
  destruct s as [|c s]; simpl; [easy|].
  destruct (isspace c); [|easy].
  rewrite andb_false_r. discriminate.
Qed.

Lemma single_spaced_tail (b : bool) (z s : pystr) :
  single_spaced b (z ++ s) = true -> single_spaced false s = true.
Proof.
  revert b. induction z as [|c z IH]; intros b; simpl.
  - destruct b; [apply single_spaced_weaken | easy].
  - destruct (isspace c); [|apply IH].
    intros H. apply andb_true_iff in H. destruct H as [_ H]. now apply IH in H.
Qed.

Lemma single_spaced_front (b : bool) (s z : pystr) :
  single_spaced b (s ++ z) = true -> single_spaced b s = true.
Proof.
  revert b. induction s as [|c s IH]; intros b; simpl; [easy|].
  destruct (isspace c); [|apply IH].
  intros H. apply andb_true_iff in H. destruct H as [-> H]. now apply IH in H.
Qed.

Lemma single_spaced_only_spaces (b : bool) (s : pystr) (c : char) :
  single_spaced b s = true -> In c s -> isspace c = true -> c = 32%N.
Proof.
  revert b. induction s as [|x s IH]; intros b H Hin Hc; [easy|].
  simpl in H. destruct Hin as [-> | Hin].
  - rewrite Hc in H. apply andb_true_iff in H. destruct H as [H _].
    apply andb_true_iff in H. destruct H as [H _]. now apply N.eqb_eq in H.
  - destruct (isspace x); [|eauto].
    apply andb_true_iff in H. destruct H as [_ H]. eauto.
Qed.

Lemma single_spaced_not_adjacent (b : bool) (l1 l2 : pystr) (x y : char) :
  single_spaced b (l1 ++ x :: y :: l2) = true ->
  isspace x = true -> isspace y = true -> False.
Proof.
  intros H Hx Hy. apply single_spaced_tail in H. simpl in H.
  rewrite Hx, Hy in H. simpl in H.
  rewrite !andb_false_r in H. discriminate.
Qed.

(** Collapsing puts a string in that form, and leaves a string of that form
    as it is. *)
Lemma collapse_single_spaced (s : pystr) :
  single_spaced true (replace_runs isspace space true s) = true
  /\ single_spaced false (replace_runs isspace space false s) = true.
Proof.
  induction s as [|c s [IH1 IH0]]; simpl; [easy|].
  destruct (isspace c) eqn:E; simpl; rewrite ?E; auto.
Qed.

Lemma collapse_fixed (b : bool) (s : pystr) :
  single_spaced b s = true -> replace_runs isspace space b s = s.
Proof.
  revert b. induction s as [|c s IH]; intros b H; simpl in *; [reflexivity|].
  destruct (isspace c) eqn:E.
  - apply andb_true_iff in H. destruct H as [H Hs].
    apply andb_true_iff in H. destruct H as [Hc Hb].
    apply N.eqb_eq in Hc. subst c. destruct b; [discriminate|].
    simpl. f_equal. now apply IH.
  - f_equal. now apply IH.
Qed.

(** ** The OCR clean-up of [extract_data] *)

Lemma ocr_cleaned_ascii (raw_ocr : pystr) (c : char) :
  In c (ocr_cleaned raw_ocr) -> VideoIntelligenceService.non_ascii c = false.
Proof.
  unfold ocr_cleaned, collapse_whitespace. intros H.
  destruct (strip_infix
              (replace_runs isspace space false
                 (replace_runs VideoIntelligenceService.non_ascii space false
                    raw_ocr))) as (z1 & z2 & Hz).
  assert (Hin : In c
                  (replace_runs isspace space false
                     (replace_runs VideoIntelligenceService.non_ascii space
                        false raw_ocr))).
  { rewrite Hz. apply in_or_app. right. apply in_or_app. now left. }
  apply replace_runs_in in Hin. destruct Hin as [[<- | []] | [Hin _]];
    [reflexivity|].
  apply replace_runs_in in Hin. destruct Hin as [[<- | []] | [_ Hc]];
    [reflexivity | exact Hc].
Qed.

Lemma ocr_cleaned_single_spaced (raw_ocr : pystr) :
  single_spaced false (ocr_cleaned raw_ocr) = true.
Proof.
  unfold ocr_cleaned, collapse_whitespace.
  set (r1 := replace_runs VideoIntelligenceService.non_ascii space false
               raw_ocr).
  destruct (strip_infix (replace_runs isspace space false r1))
    as (z1 & z2 & Hz).
  destruct (collapse_single_spaced r1) as [_ H]. rewrite Hz in H.
  apply single_spaced_tail in H. now apply single_spaced_front in H.
Qed.

(** What the clean-up guarantees: the result is pure ASCII, its only
    whitespace characters are single spaces between words, and it neither
    starts nor ends with whitespace. *)
Theorem clean_ocr_tidy (raw_ocr : pystr) :
  let out := VideoIntelligenceService.clean_ocr raw_ocr in
  (forall c, In c out -> (c <= 127)%N)
  /\ (forall c, In c out -> isspace c = true -> c = 32%N)
  /\ (forall l1 x y l2, out = l1 ++ x :: y :: l2 ->
        ~ (isspace x = true /\ isspace y = true))
  /\ (forall c r, out = c :: r -> isspace c = false)
  /\ (forall c r, out = r ++ [c] -> isspace c = false).
Proof.
  cbv zeta. rewrite clean_ocr_replaces_runs.
  pose proof (ocr_cleaned_single_spaced raw_ocr) as Hs.
  repeat split.
  - intros c Hc. apply ocr_cleaned_ascii in Hc.
    unfold VideoIntelligenceService.non_ascii in Hc.
    apply N.ltb_ge in Hc. exact Hc.
  - intros c Hin Hc. eapply single_spaced_only_spaces; eassumption.
  - intros l1 x y l2 E [Hx Hy]. rewrite E in Hs.
    eapply single_spaced_not_adjacent; eassumption.
  - intros c r E. unfold ocr_cleaned in E. eapply strip_first; eassumption.
  - intros c r E. unfold ocr_cleaned in E. eapply strip_last; eassumption.
Qed.

(** Cleaning a cleaned text changes nothing. *)
Theorem clean_ocr_idempotent (raw_ocr : pystr) :
  VideoIntelligenceService.clean_ocr
    (VideoIntelligenceService.clean_ocr raw_ocr)
  = VideoIntelligenceService.clean_ocr raw_ocr.
Proof.
  rewrite !clean_ocr_replaces_runs.
  unfold ocr_cleaned at 1, collapse_whitespace.
  rewrite (@replace_runs_none VideoIntelligenceService.non_ascii space
             (ocr_cleaned raw_ocr))
    by (intros c; apply ocr_cleaned_ascii).
  rewrite collapse_fixed by apply ocr_cleaned_single_spaced.
  unfold ocr_cleaned. apply strip_idempotent.
Qed.

(** The clean-up leaves nothing exactly when the OCR text has no ASCII
    character other than whitespace. *)
Theorem clean_ocr_empty_iff (raw_ocr : pystr) :
  VideoIntelligenceService.clean_ocr raw_ocr = []
  <-> (forall c, In c raw_ocr -> (127 < c)%N \/ isspace c = true).
Proof.
  rewrite clean_ocr_replaces_runs. unfold ocr_cleaned, collapse_whitespace.
  split.
  - intros Hempty c Hin.
    destruct (VideoIntelligenceService.non_ascii c) eqn:Ea.
    { left. now apply N.ltb_lt. }
    destruct (isspace c) eqn:Es; [now right|]. exfalso.
    assert (H : In c (strip
                        (replace_runs isspace space false
                           (replace_runs VideoIntelligenceService.non_ascii
                              space false raw_ocr)))).
    { apply strip_keeps; [|exact Es].
      apply replace_runs_keeps; [|exact Es].
      now apply replace_runs_keeps. }
    rewrite Hempty in H. exact H.
  - intros Hjunk. apply strip_whitespace. intros c Hin.
    apply replace_runs_in in Hin. destruct Hin as [[<- | []] | [Hin Hs]];
      [reflexivity|].
    apply replace_runs_in in Hin. destruct Hin as [[<- | []] | [Hin Ha]];
      [reflexivity|].
    destruct (Hjunk c Hin) as [H | H]; [|exact H].
    apply N.ltb_lt in H. unfold VideoIntelligenceService.non_ascii in Ha.
    congruence.
Qed.

(** ** What [extract_data] returns *)

(** Whenever [extract_data] returns, its transcript neither starts nor ends
    with whitespace, whether it comes from speech or from OCR. *)
Theorem extracted_transcript_trimmed (self : VideoIntelligenceService.t)
  (response : videointelligence.AnnotateVideoResponse) (out : Update) :
  VideoIntelligenceService.extract_data self response = inr out ->
  exists t,
    upd_transcript out = Some t
    /\ (forall c r, t = c :: r -> isspace c = false)
    /\ (forall c r, t = r ++ [c] -> isspace c = false).
Proof.
  unfold VideoIntelligenceService.extract_data.
  destruct (videointelligence.annotation_results response) as [|a others].
  - intros [= <-]. exists []. repeat split; intros c r E;
      [discriminate | now destruct r].
  - destruct (VideoIntelligenceService.duration_sec a); [discriminate|].
    intros [= <-]. eexists. split; [reflexivity|].
    unfold VideoIntelligenceService.full_transcript,
      VideoIntelligenceService.clean_ocr.
    destruct (_ && _); split; intros c r E;
      first [eapply strip_first; eassumption
            | eapply strip_last; eassumption].
Qed.

(** Whenever [extract_data] returns for a response with an annotation
    result, [ocr_text] holds the text of every OCR block of the first
    result, in order and as the API gave it (the clean-up applies to the
    transcript only), and the dict carries neither [errors] nor
    [final_status]. *)
Theorem extracted_ocr_text_verbatim (self : VideoIntelligenceService.t)
  (annotations : videointelligence.VideoAnnotationResults)
  (others : list videointelligence.VideoAnnotationResults) (out : Update) :
  VideoIntelligenceService.extract_data self
    {| videointelligence.annotation_results := annotations :: others |}
  = inr out ->
  upd_ocr_text out
  = Some (map videointelligence.text
            (videointelligence.text_annotations annotations))
  /\ upd_errors out = None /\ upd_final_status out = None.
Proof.
  unfold VideoIntelligenceService.extract_data.
  cbn [videointelligence.annotation_results].
  destruct (VideoIntelligenceService.duration_sec annotations);
    [discriminate|].
  intros [= <-]. cbn. now rewrite ocr_lines_texts.
Qed.

(** A first segment-label annotation without segments makes the duration
    estimate index an empty list: [extract_data] raises [IndexError],
    whatever speech and OCR the result holds, and the Extraction node
    reports the failure instead of the extracted text. *)
Theorem empty_label_segments_fail_extraction (w : World)
  (state : VideoAuditState) (h h1 : history)
  (self : VideoIntelligenceService.t)
  (annotations : videointelligence.VideoAnnotationResults)
  (others : list videointelligence.VideoAnnotationResults)
  (label : videointelligence.LabelAnnotation)
  (labels : list videointelligence.LabelAnnotation) :
  annotate_steps w state h
  = (h1, inr (self, {| videointelligence.annotation_results :=
                         annotations :: others |})) ->
  videointelligence.segment_label_annotations annotations = label :: labels ->
  videointelligence.segments label = [] ->
  VideoIntelligenceService.extract_data self
    {| videointelligence.annotation_results := annotations :: others |}
  = inl (Exn "IndexError" (str "list index out of range"))
  /\ index_video_node w state h
     = (h1,
        inr {| upd_video_url := None; upd_video_id := None;
               upd_local_file_path := None; upd_video_metadata := None;
               upd_transcript := Some (str ""); upd_ocr_text := Some [];
               upd_compliance_results := None;
               upd_final_status := Some (VStr (str "FAIL"));
               upd_final_report := None;
               upd_errors := Some [str "list index out of range"] |}).
Proof.
  intros Hsteps Hlabels Hsegments.
  assert (He : VideoIntelligenceService.extract_data self
                 {| videointelligence.annotation_results :=
                      annotations :: others |}
               = inl (Exn "IndexError" (str "list index out of range"))).
  { unfold VideoIntelligenceService.extract_data,
      VideoIntelligenceService.duration_sec.
    cbn [videointelligence.annotation_results].
    now rewrite Hlabels, Hsegments. }
  split; [exact He|].
  unfold index_video_node, catch, index_steps, bind at 1. rewrite Hsteps.
  unfold bind, lift. cbn [fst snd]. now rewrite He.
Qed.

(** ** What the "Clean Markdown" step can return *)

Lemma lazy_star_split R (s : pystr) (k : pystr -> option R) (x : R) :
  Re.lazy_star Re.dot s k = Some x ->
  exists a b, s = a ++ b /\ k b = Some x.
Proof.
  induction s as [|c s IH]; simpl; unfold Re.orelse.
  - destruct (k []) eqn:E; [|discriminate].
    intros [= <-]. now exists [], [].
  - destruct (k (c :: s)) eqn:E.
    + intros [= <-]. now exists [], (c :: s).
    + intros H. destruct (IH H) as (a & b & -> & Hb).
      now exists (c :: a), b.
Qed.

Lemma startswith_split (p s : pystr) :
  startswith p s = true -> s = p ++ skipn (length p) s.
Proof.
  revert s. induction p as [|x p IH]; intros s; simpl; [reflexivity|].
  destruct s as [|y s]; [discriminate|].
  intros H. apply andb_true_iff in H. destruct H as [Hxy Hp].
  apply N.eqb_eq in Hxy. subst y. f_equal. now apply IH.
Qed.

Lemma search_split (r : Re.regex) (s : pystr) (m : Re.match_obj) :
  Re.search r s = Some m ->
  exists pre s', s = pre ++ s' /\ Re.match_at r s' = Some m.
Proof.
  induction s as [|c s IH]; simpl.
  - destruct (Re.match_at r []) eqn:E; [|discriminate].
    intros [= <-]. now exists [], [].
  - destruct (Re.match_at r (c :: s)) eqn:E.
    + intros [= <-]. now exists [], (c :: s).
    + intros H. destruct (IH H) as (pre & s' & -> & Hm).
      now exists (c :: pre), s'.
Qed.

(** The part of the pattern after the optional tag. *)
Lemma fence_tail_shape (s : pystr) (g : option pystr) (m : Re.match_obj) :
  Re.run (Re.Seq (Re.Group (Re.LazyStar Re.dot)) (Re.Lit fence)) s g
    (fun rest g1 => Some {| Re.m_rest := rest; Re.m_group1 := g1 |})
  = Some m ->
  exists c post, s = c ++ fence ++ post /\ Re.m_group1 m = Some c.
Proof.
  rewrite run_seq, run_group, run_lazy_star. intros H.
  apply lazy_star_split in H. destruct H as (a & b & -> & Hb).
  rewrite run_lit in Hb. destruct (startswith fence b) eqn:E; [|discriminate].
  injection Hb as <-. exists a, (skipn (length fence) b). split.
  - f_equal. now apply startswith_split.
  - cbn [Re.m_group1]. rewrite length_app.
    replace (length a + length b - length b) with (length a) by lia.
    now rewrite firstn_length_app.
Qed.

Lemma fence_match_shape (s : pystr) (m : Re.match_obj) :
  Re.match_at FENCE_RE s = Some m ->
  exists tag c post,
    (tag = [] \/ tag = str "json")
    /\ s = fence ++ tag ++ c ++ fence ++ post
    /\ Re.m_group1 m = Some c.
Proof.
  unfold Re.match_at, FENCE_RE. rewrite run_seq, run_lit.
  destruct (startswith fence s) eqn:E; [|discriminate].
  apply startswith_split in E. set (s1 := skipn (length fence) s) in *.
  rewrite run_seq, run_opt, run_lit. unfold Re.orelse.
  destruct (startswith (str "json") s1) eqn:Ej.
  - apply startswith_split in Ej.
    set (s2 := skipn (length (str "json")) s1) in *.
    match goal with
    | |- match ?t with _ => _ end = _ -> _ => destruct t as [m'|] eqn:Ht
    end.
    + intros [= <-]. apply fence_tail_shape in Ht.
      destruct Ht as (c & post & Hs2 & Hg).
      exists (str "json"), c, post. repeat split; auto.
      now rewrite E, Ej, Hs2.
    + intros H. apply fence_tail_shape in H.
      destruct H as (c & post & Hs1 & Hg).
      exists [], c, post. repeat split; auto. now rewrite E, Hs1.
  - intros H. apply fence_tail_shape in H.
    destruct H as (c & post & Hs1 & Hg).
    exists [], c, post. repeat split; auto. now rewrite E, Hs1.
Qed.

Lemma clean_markdown_shape (content : pystr) :
  exists c,
    clean_markdown content = Some c
    /\ (c = content
        \/ exists pre tag post,
             (tag = [] \/ tag = str "json")
             /\ content = pre ++ fence ++ tag ++ c ++ fence ++ post).
Proof.
  unfold clean_markdown. destruct (contains fence content); [|eauto].
  destruct (Re.search FENCE_RE content) as [m|] eqn:E; [|eauto].
  apply search_split in E. destruct E as (pre & s' & -> & Hm).
  apply fence_match_shape in Hm.
  destruct Hm as (tag & c & post & Htag & -> & Hg).
  exists c. split; [exact Hg|]. right. now exists pre, tag, post.
Qed.

(** [clean_markdown] never yields [None] (so [content.strip()] cannot fail
    on it): it returns either the content unchanged, or a text that stands
    in the content between two triple backticks, after an optional [json]
    right behind the opening one. *)
Theorem clean_markdown_between_fences (content : pystr) :
  exists c,
    clean_markdown content = Some c
    /\ (c = content
        \/ exists pre tag post,
             (tag = [] \/ tag = str "json")
             /\ content = pre ++ fence ++ tag ++ c ++ fence ++ post).
Proof. apply clean_markdown_shape. Qed.

Lemma fence_overlap (l l2 rest x : pystr) :
  l <> [] -> fence = l ++ l2 -> fence ++ x = l2 ++ rest ->
  rest = l ++ x.
Proof.
  rewrite fence_chars. intros Hl Hf H.
  destruct l as [|a [|b [|c [|d l]]]]; simpl in Hf; try congruence;
    injection Hf; intros; subst; simpl in H |- *; congruence.
Qed.

(** A response with an opening fence that is never closed goes to the
    parser as it is, backticks included. *)
Theorem unterminated_fence_unchanged (pre rest : pystr) :
  contains fence (pre ++ str "``") = false ->
  contains fence rest = false ->
  clean_markdown (pre ++ fence ++ rest) = Some (pre ++ fence ++ rest).
Proof.
  intros Hpre Hrest.
  destruct (clean_markdown_shape (pre ++ fence ++ rest))
    as (c & Hc & [-> | (p & tag & post & _ & E)]); [exact Hc|].
  exfalso.
  assert (Hfound : forall a b, rest = a ++ fence ++ b -> False).
  { intros a b ->. now rewrite contains_found in Hrest. }
  replace (p ++ fence ++ tag ++ c ++ fence ++ post)
    with (p ++ fence ++ (tag ++ c) ++ fence ++ post) in E
    by now rewrite <- !app_assoc.
  apply app_eq_app in E. destruct E as [l [[-> E] | [-> E]]].
  - destruct l as [|x l].
    + rewrite app_nil_l in E. apply app_inv_head in E.
      apply (Hfound (tag ++ c) post). now rewrite <- E.
    + apply (f_equal (startswith fence)) in E.
      rewrite startswith_app in E.
      rewrite (@no_fence_inside (p ++ x :: l) rest Hpre p (x :: l) eq_refl)
        in E by discriminate.
      discriminate.
  - destruct l as [|x l].
    + rewrite app_nil_l in E. apply app_inv_head in E.
      apply (Hfound (tag ++ c) post). exact E.
    + apply app_eq_app in E. destruct E as [l2 [[Hf E] | [_ E]]].
      * assert (Hr : rest = (x :: l) ++ (tag ++ c) ++ fence ++ post).
        { apply (@fence_overlap (x :: l) l2 rest
                   ((tag ++ c) ++ fence ++ post));
            [discriminate | exact Hf | exact E]. }
        apply (Hfound ((x :: l) ++ tag ++ c) post).
        rewrite Hr. now rewrite <- !app_assoc.
      * apply (Hfound l2 ((tag ++ c) ++ fence ++ post)). exact E.
Qed.

(** ** More on the Judgment node *)

Section JudgmentMore.
Variable json_loads : pystr -> exn + pyval.
Variable w : World.

(** The node reads [transcript], [ocr_text] and [video_metadata] and
    nothing else: an upstream [final_status] or [errors] entry does not
    change what it does. *)
Theorem judgment_reads_three_fields (s s' : VideoAuditState) (h : history) :
  transcript s = transcript s' ->
  ocr_text s = ocr_text s' ->
  video_metadata s = video_metadata s' ->
  audit_content_node json_loads w s h = audit_content_node json_loads w s' h.
Proof.
  intros Ht Ho Hm.
  unfold audit_content_node, rag_retrieval, audit_messages.
  now rewrite Ht, Ho, Hm.
Qed.

(** Fail-closed: a [final_status] other than "FAIL" can only come out of the
    node when the model was called, its answer parsed as a JSON object, and
    that object has a ["status"] key holding this very value. *)
Theorem status_other_than_fail_is_the_models (state : VideoAuditState)
  (h h1 : history) (out : Update) (v : pyval) :
  audit_content_node json_loads w state h = (h1, inr out) ->
  upd_final_status out = Some v ->
  v <> VStr (str "FAIL") ->
  exists (h0 : history) (messages : LlmMessages) (content : pystr)
         (items : list (pystr * pyval)),
    h1 = h0 ++ [EvLlmInvoke messages]
    /\ llm_invoke w h0 messages = inr content
    /\ load_response json_loads content = inr (VDict items)
    /\ dict_has items (str "status") = true
    /\ dict_get items (str "status") (VStr (str "FAIL")) = v
    /\ out = audit_result items.
Proof.
  unfold audit_content_node.
  destruct (negb (truthy _)).
  { intros [= <- <-]. cbn. intros [= <-] Hv. now contradiction Hv. }
  unfold bind at 1.
  destruct (rag_retrieval w state _ h) as [h0 [e | docs]]; [discriminate|].
  unfold catch, audit_steps, bind, call, lift, ret, parse_response.
  destruct (llm_invoke w h0 _) as [e | content] eqn:Hllm.
  { intros [= <- <-]. cbn. intros [= <-] Hv. now contradiction Hv. }
  destruct (load_response json_loads content) as [e | [| | | | | |items]]
    eqn:Hload;
    try (intros [= <- <-]; cbn; intros [= <-] Hv; now contradiction Hv).
  intros [= <- <-]. cbn [upd_final_status audit_result]. intros [= <-] Hv.
  eexists _, _, content, items. repeat split; try eassumption.
  destruct (dict_has items (str "status")) eqn:Hhas; [reflexivity|].
  exfalso. apply Hv. now apply dict_get_missing.
Qed.

Variable state : VideoAuditState.
Variable t : pystr.
Hypothesis Htranscript : transcript state = Some t.
Hypothesis Htruthy : truthy t = true.

Lemma audit_after_retrieval (h h1 : history) (docs : list Document) :
  rag_retrieval w state t h = (h1, inr docs) ->
  exists out,
    audit_content_node json_loads w state h
    = (h1 ++ [EvLlmInvoke (audit_messages state t docs)], inr out)
    /\ match llm_invoke w h1 (audit_messages state t docs) with
       | inl e => out = audit_failure e
       | inr content =>
           match load_response json_loads content with
           | inl e => out = audit_failure e
           | inr (VDict items) => out = audit_result items
           | inr other =>
               out = audit_failure
                       (Exn "AttributeError"
                          (str "'" ++ type_name other
                           ++ str "' object has no attribute 'get'"))
           end
       end.
Proof.
  intros Hrag. unfold audit_content_node. rewrite Htranscript, Htruthy.
  cbn [negb]. unfold bind at 1. rewrite Hrag.
  unfold catch, audit_steps, bind, call, lift, ret, parse_response.
  destruct (llm_invoke w h1 _) as [e | content]; [eauto|].
  destruct (load_response json_loads content) as [e | [| | | | | |items]];
    eauto.
Qed.

(** Once the retrieval has returned, the node calls the model exactly once
    (it never retries) and always returns a dict: the parsed verdict when
    there is one, otherwise [errors = [message]] with [final_status =
    "FAIL"], whether the call itself or the parsing of the answer failed. *)
Theorem single_inference_no_retry (h h1 : history) (docs : list Document) :
  rag_retrieval w state t h = (h1, inr docs) ->
  exists out,
    audit_content_node json_loads w state h
    = (h1 ++ [EvLlmInvoke (audit_messages state t docs)], inr out)
    /\ match llm_invoke w h1 (audit_messages state t docs) with
       | inl e => out = audit_failure e
       | inr content =>
           match load_response json_loads content with
           | inl e => out = audit_failure e
           | inr (VDict items) => out = audit_result items
           | inr other =>
               out = audit_failure
                       (Exn "AttributeError"
                          (str "'" ++ type_name other
                           ++ str "' object has no attribute 'get'"))
           end
       end.
Proof. apply audit_after_retrieval. Qed.

(** When both the primary and the fallback query return no document, the
    node does not stop: the model is asked with an empty rules section. *)
Theorem no_rules_found_still_audits (h : history) :
  llm_init w h = inr tt ->
  retriever_init w (h ++ [EvLlmInit]) = inr tt ->
  retriever_invoke w ((h ++ [EvLlmInit]) ++ [EvRetrieverInit])
    (primary_query state t) = inr [] ->
  retriever_invoke w
    (((h ++ [EvLlmInit]) ++ [EvRetrieverInit])
       ++ [EvRetrieve (primary_query state t)])
    FALLBACK_QUERY = inr [] ->
  exists (messages : LlmMessages) (out : Update),
    audit_content_node json_loads w state h
    = (h ++ [EvLlmInit; EvRetrieverInit; EvRetrieve (primary_query state t);
             EvRetrieve FALLBACK_QUERY; EvLlmInvoke messages],
       inr out)
    /\ retrieved_rules messages = str ""
    /\ msg_transcript messages = t.
Proof.
  intros Hl Hr Hq Hf.
  assert (Hrag : rag_retrieval w state t h
                 = ((((h ++ [EvLlmInit]) ++ [EvRetrieverInit])
                       ++ [EvRetrieve (primary_query state t)])
                      ++ [EvRetrieve FALLBACK_QUERY], inr [])).
  { unfold rag_retrieval, bind, call. fold (primary_query state t).
    rewrite Hl, Hr, Hq. cbn [nonempty negb]. now rewrite Hf. }
  destruct (@audit_after_retrieval h _ _ Hrag) as (out & Hout & _).
  exists (audit_messages state t []), out. split; [|split; reflexivity].
  rewrite Hout. now rewrite <- !app_assoc.
Qed.
End JudgmentMore.

(** Whatever the Judgment node returns carries a [final_status]; it never
    writes the inputs or the extraction fields; and a dict with [errors]
    has [final_status = "FAIL"] and neither findings nor report. *)
Theorem judgment_output_keys (json_loads : pystr -> exn + pyval) (w : World)
  (state : VideoAuditState) (h h1 : history) (out : Update) :
  audit_content_node json_loads w state h = (h1, inr out) ->
  upd_final_status out <> None
  /\ upd_video_url out = None /\ upd_video_id out = None
  /\ upd_local_file_path out = None /\ upd_video_metadata out = None
  /\ upd_transcript out = None /\ upd_ocr_text out = None
  /\ (upd_errors out <> None ->
      upd_final_status out = Some (VStr (str "FAIL"))
      /\ upd_compliance_results out = None
      /\ upd_final_report out = None).
Proof.
  unfold audit_content_node.
  destruct (negb (truthy _)).
  { intros [= <- <-]. cbn. repeat split; congruence. }
  unfold bind at 1.
  destruct (rag_retrieval w state _ h) as [h0 [e | docs]]; [discriminate|].
  unfold catch, audit_steps, bind, call, lift, ret, parse_response.
  destruct (llm_invoke w h0 _) as [e | content].
  { intros [= <- <-]. cbn. repeat split; congruence. }
  destruct (load_response json_loads content) as [e | [| | | | | |items]];
    intros [= <- <-]; cbn; repeat split; congruence.
Qed.

(** ** More on the Extraction node *)

Lemma extract_data_keys (self : VideoIntelligenceService.t)
  (response : videointelligence.AnnotateVideoResponse) (out : Update) :
  VideoIntelligenceService.extract_data self response = inr out ->
  upd_transcript out <> None /\ upd_ocr_text out <> None
  /\ upd_video_url out = None /\ upd_video_id out = None
  /\ upd_local_file_path out = None /\ upd_compliance_results out = None
  /\ upd_final_report out = None
  /\ upd_errors out = None /\ upd_final_status out = None.
Proof.
  unfold VideoIntelligenceService.extract_data.
  destruct (videointelligence.annotation_results response) as [|a others].
  - intros [= <-]. cbn. repeat split; congruence.
  - destruct (VideoIntelligenceService.duration_sec a); [discriminate|].
    intros [= <-]. cbn. repeat split; congruence.
Qed.

(** The Extraction node never raises.  Its dict always has [transcript] and
    [ocr_text], never the inputs, findings or a report, and it has [errors]
    and [final_status] together (the failure dict) or not at all. *)
Theorem extraction_output_keys (w : World) (state : VideoAuditState)
  (h : history) :
  exists (h1 : history) (out : Update),
    index_video_node w state h = (h1, inr out)
    /\ upd_transcript out <> None /\ upd_ocr_text out <> None
    /\ upd_video_url out = None /\ upd_video_id out = None
    /\ upd_local_file_path out = None /\ upd_compliance_results out = None
    /\ upd_final_report out = None
    /\ ((upd_errors out = None /\ upd_final_status out = None)
        \/ exists e, out = index_failure e).
Proof.
  unfold index_video_node, catch, ret.
  destruct (index_steps w state h) as [h1 [e | out]] eqn:E.
  - exists h1, (index_failure e). cbn.
    repeat split; try congruence. right. now exists e.
  - exists h1, out. split; [reflexivity|].
    unfold index_steps, bind, lift, ret in E.
    destruct (annotate_steps w state h) as [h2 [e | [self response]]];
      [discriminate|].
    cbn [fst snd] in E.
    destruct (VideoIntelligenceService.extract_data self response)
      as [e | out'] eqn:He; [discriminate|].
    injection E as <- <-.
    destruct (extract_data_keys _ _ He)
      as (H1 & H2 & H3 & H4 & H5 & H6 & H7 & H8 & H9).
    repeat split; auto.
Qed.

(** The node reads [video_url] and [video_id] and nothing else. *)
Theorem extraction_reads_two_fields (w : World) (s s' : VideoAuditState)
  (h : history) :
  video_url s = video_url s' ->
  video_id s = video_id s' ->
  index_video_node w s h = index_video_node w s' h.
Proof.
  intros Hu Hi. unfold index_video_node, index_steps, annotate_steps.
  now rewrite Hu, Hi.
Qed.

Section ExtractionCalls.
Variable w : World.
Variable state : VideoAuditState.

Let id : pystr :=
  match video_id state with Some v => v | None => str "vid_demo" end.
Let file : pystr := str "temp_" ++ id ++ str ".mp4".
Let blob : pystr := str "videos/" ++ id ++ str ".mp4".

(** Whenever the steps up to the annotation succeed, the calls made are, in
    this order: the clients, the download of the state's URL to
    [temp_<id>.mp4], the upload of that file as [videos/<id>.mp4], the
    existence check with at most one removal of the file, and the
    annotation of [gs://<bucket>/videos/<id>.mp4]; [<id>] is [vid_demo]
    when the state has no [video_id]. *)
Theorem extraction_call_sequence (h h1 : history)
  (self : VideoIntelligenceService.t)
  (response : videointelligence.AnnotateVideoResponse) :
  annotate_steps w state h = (h1, inr (self, response)) ->
  exists (url : pystr) (cleanup : history),
    video_url state = Some url
    /\ (cleanup = [] \/ cleanup = [EvRemove file])
    /\ h1 = h ++ [EvServiceInit; EvDownload url file; EvUpload file blob;
                  EvPathExists file]
              ++ cleanup
              ++ [EvAnnotate (str "gs://" ++ fmt (getenv w "GCS_BUCKET_NAME")
                              ++ str "/" ++ blob)].
Proof.
  unfold annotate_steps, VideoIntelligenceService.init,
    VideoIntelligenceService.download_youtube_video,
    VideoIntelligenceService.upload_video,
    VideoIntelligenceService.annotate_video, bind, catch, call, raise, ret.
  fold id. fold file. fold blob.
  destruct (service_init w h) as [e | []]; [discriminate|].
  destruct (video_url state) as [url|]; [|discriminate].
  destruct (contains _ url || contains _ url); [|discriminate].
  destruct (ydl_download w _ url file) as [e | []]; [discriminate|].
  cbn [VideoIntelligenceService.bucket_name].
  destruct (upload_from_filename w _ _ blob file) as [e | []];
    [discriminate|].
  destruct (path_exists w _ file).
  - destruct (os_remove w _ file) as [e | []]; [discriminate|].
    destruct (annotate w _ _) as [e | r]; [discriminate|].
    intros [= <- <- <-]. exists url, [EvRemove file].
    split; [reflexivity|]. split; [now right|].
    now rewrite <- !app_assoc.
  - destruct (annotate w _ _) as [e | r]; [discriminate|].
    intros [= <- <- <-]. exists url, [].
    split; [reflexivity|]. split; [now left|].
    now rewrite <- !app_assoc.
Qed.

(** A URL that names neither [youtube.com] nor [youtu.be] is refused after
    the clients were built and before anything is downloaded, with the
    message of the source; a state without URL fails at the same place with
    a [TypeError]. *)
Theorem invalid_url_rejected (h : history) :
  service_init w h = inr tt ->
  match video_url state with
  | Some url =>
      contains (str "youtube.com") url || contains (str "youtu.be") url = false
  | None => True
  end ->
  exists e,
    index_video_node w state h
    = (h ++ [EvServiceInit], inr (index_failure e))
    /\ (video_url state <> None ->
        e = Exn "Exception"
              (str "Please provide a valid YouTube URL for this test."))
    /\ (video_url state = None -> exn_class e = "TypeError"%string).
Proof.
  intros Hinit Hurl.
  unfold index_video_node, catch, index_steps, annotate_steps,
    VideoIntelligenceService.init, bind, call, raise, ret.
  rewrite Hinit. destruct (video_url state) as [url|].
  - rewrite Hurl. eexists. split; [reflexivity|]. split; congruence.
  - eexists. split; [reflexivity|]. split; [congruence | reflexivity].
Qed.

(** When the upload fails, the node stops there: the failure is reported
    with the prefix of [upload_video], and the downloaded file is neither
    removed nor annotated. *)
Theorem failed_upload_keeps_local_file (h : history) (url : pystr) (e : exn) :
  service_init w h = inr tt ->
  video_url state = Some url ->
  contains (str "youtube.com") url || contains (str "youtu.be") url = true ->
  ydl_download w (h ++ [EvServiceInit]) url file = inr tt ->
  upload_from_filename w ((h ++ [EvServiceInit]) ++ [EvDownload url file])
    (getenv w "GCS_BUCKET_NAME") blob file = inl e ->
  index_video_node w state h
  = (h ++ [EvServiceInit; EvDownload url file; EvUpload file blob],
     inr (index_failure
            (Exn "Exception" (str "GCS Upload Failed: " ++ str_exn e))))
  /\ removals [EvServiceInit; EvDownload url file; EvUpload file blob] = [].
Proof.
  intros Hinit Hurl Hy Hd Hu. split; [|reflexivity].
  unfold index_video_node, index_steps, annotate_steps,
    VideoIntelligenceService.init,
    VideoIntelligenceService.download_youtube_video,
    VideoIntelligenceService.upload_video, bind, catch, call, raise, ret.
  fold id. fold file. fold blob.
  rewrite Hinit, Hurl, Hy, Hd. cbn [VideoIntelligenceService.bucket_name].
  rewrite Hu. now rewrite <- !app_assoc.
Qed.
End ExtractionCalls.

(** ** scripts/index_documents.py *)

Lemma pystr_eqb_refl (s : pystr) : PyStr.eqb s s = true.
Proof.
  induction s as [|c s IH]; simpl; [reflexivity|].
  now rewrite char_eqb_refl, IH.
Qed.

Lemma uploads_app (a b : list index_documents.event) :
  index_documents.uploads (a ++ b)
  = index_documents.uploads a ++ index_documents.uploads b.
Proof.
  induction a as [|[| | |] a IH]; simpl; congruence.
Qed.

Lemma until_slash_no_slash (s : pystr) :
  ~ In index_documents.slash (index_documents.until_slash s).
Proof.
  induction s as [|c s IH]; simpl; [easy|].
  destruct (N.eqb c index_documents.slash) eqn:E; [easy|].
  intros [-> | H]; [|now apply IH].
  now rewrite N.eqb_refl in E.
Qed.

Lemma basename_no_slash (p : pystr) :
  ~ In index_documents.slash (index_documents.basename p).
Proof.
  unfold index_documents.basename. rewrite <- in_rev.
  apply until_slash_no_slash.
Qed.

Section Uploader.
Import index_documents.
Variable w : World.
Variable bucket : pystr.

Lemma upload_loop_app (a b : list pystr) (h : list event) :
  upload_loop w bucket (a ++ b) h
  = Trace.bind (upload_loop w bucket a) (fun _ => upload_loop w bucket b) h.
Proof.
  revert h. induction a as [|p a IH]; intros h; [reflexivity|].
  simpl. unfold Trace.bind, Trace.call, Trace.ret.
  destruct (blob_exists w h bucket (basename p)) as [e | present];
    [reflexivity|].
  destruct present.
  - rewrite IH. reflexivity.
  - destruct (upload_from_filename w _ bucket (basename p) p);
      [reflexivity|].
    rewrite IH. reflexivity.
Qed.

(** Whatever the collaborators answer, the loop only extends the history,
    and each upload it makes stores a file of the list under its base name,
    which has no slash: at the root of the bucket. *)
Lemma upload_loop_uploads (files : list pystr) (h h1 : list event)
  (r : exn + unit) :
  upload_loop w bucket files h = (h1, r) ->
  exists new,
    h1 = h ++ new
    /\ forall name path, In (name, path) (uploads new) ->
         In path files /\ name = basename path.
Proof.
  revert h. induction files as [|p files IH]; intros h; simpl.
  - intros [= <- <-]. exists []. now rewrite app_nil_r.
  - unfold Trace.bind at 1, Trace.call.
    destruct (blob_exists w h bucket (basename p)) as [e | present].
    { intros [= <- <-]. exists [EvBlobExists (basename p)]. now split. }
    destruct present.
    + unfold Trace.bind at 1, Trace.ret. intros H.
      destruct (IH _ H) as (new & -> & Hnew).
      exists (EvBlobExists (basename p) :: new). split.
      * now rewrite <- app_assoc.
      * intros name path Hin. destruct (Hnew _ _ Hin). auto.
    + unfold Trace.bind at 1, Trace.call.
      destruct (upload_from_filename w _ bucket (basename p) p).
      { intros [= <- <-].
        exists [EvBlobExists (basename p);
                EvUploadFromFilename (basename p) p].
        split; [now rewrite <- app_assoc|].
        intros name path [[= <- <-] | []]. auto. }
      intros H. destruct (IH _ H) as (new & -> & Hnew).
      exists (EvBlobExists (basename p)
              :: EvUploadFromFilename (basename p) p :: new). split.
      * now rewrite <- !app_assoc.
      * intros name path [[= <- <-] | Hin]; [auto|].
        destruct (Hnew _ _ Hin). auto.
Qed.

(** A failing upload ends the run with its exception (there is no [try]):
    the files after it are not looked at. *)
Theorem failed_upload_aborts_run (done rest : list pystr) (p : pystr)
  (h h1 : list event) (e : exn) :
  upload_loop w bucket done h = (h1, inr tt) ->
  blob_exists w h1 bucket (basename p) = inr false ->
  upload_from_filename w (h1 ++ [EvBlobExists (basename p)]) bucket
    (basename p) p = inl e ->
  upload_loop w bucket (done ++ p :: rest) h
  = (h1 ++ [EvBlobExists (basename p); EvUploadFromFilename (basename p) p],
     inl e).
Proof.
  intros Hdone Hex Hup. rewrite upload_loop_app.
  unfold Trace.bind at 1. rewrite Hdone. simpl.
  unfold Trace.bind, Trace.call. rewrite Hex, Hup.
  now rewrite <- app_assoc.
Qed.
End Uploader.

(** In any run of [upload_pdfs], whatever the collaborators answer, every
    file uploaded is stored under its base name, which contains no slash
    (at the root of the bucket), and nothing is uploaded when no bucket
    name is configured. *)
Theorem uploads_at_bucket_root (w : index_documents.World)
  (h h1 : list index_documents.event) (r : exn + unit) :
  index_documents.upload_pdfs w h = (h1, r) ->
  exists new,
    h1 = h ++ new
    /\ (forall name path, In (name, path) (index_documents.uploads new) ->
          name = index_documents.basename path
          /\ ~ In index_documents.slash name)
    /\ (index_documents.BUCKET_NAME w = None
        \/ index_documents.BUCKET_NAME w = Some (str "") -> new = []).
Proof.
  unfold index_documents.upload_pdfs.
  destruct (index_documents.BUCKET_NAME w) as [bucket|].
  2:{ intros [= <- <-]. exists []. rewrite app_nil_r. now repeat split. }
  destruct bucket as [|c bucket]; cbn [truthy negb].
  { intros [= <- <-]. exists []. rewrite app_nil_r. now repeat split. }
  unfold Trace.bind at 1, Trace.call.
  destruct (index_documents.storage_client w h) as [e | []].
  { intros [= <- <-]. exists [index_documents.EvStorageClient].
    repeat split; try easy. intros [H | H]; discriminate. }
  unfold Trace.bind at 1.
  set (pattern := index_documents.path_join _ _).
  set (files := index_documents.glob w _ pattern).
  assert (Hloop : forall r0 h0,
    index_documents.upload_loop w (c :: bucket) files
      ((h ++ [index_documents.EvStorageClient])
         ++ [index_documents.EvGlob pattern]) = (h0, r0) ->
    exists new,
      h0 = h ++ new
      /\ (forall name path, In (name, path) (index_documents.uploads new) ->
            name = index_documents.basename path
            /\ ~ In index_documents.slash name)
      /\ (Some (c :: bucket) = None \/ Some (c :: bucket) = Some (str "") ->
          new = [])).
  { intros r0 h0 H. apply upload_loop_uploads in H.
    destruct H as (new & -> & Hnew).
    exists ([index_documents.EvStorageClient; index_documents.EvGlob pattern]
            ++ new).
    split; [now rewrite <- !app_assoc|]. split.
    - intros name path Hin. simpl in Hin. destruct (Hnew _ _ Hin) as [_ ->].
      split; [reflexivity | apply basename_no_slash].
    - intros [H | H]; discriminate. }
  destruct files as [|f files'] eqn:Ef; cbn [nonempty negb].
  - intros [= <- <-].
    exists [index_documents.EvStorageClient; index_documents.EvGlob pattern].
    split; [now rewrite <- app_assoc|]. split; [easy|].
    intros [H | H]; discriminate.
  - apply Hloop.
Qed.

(** A bucket that answers consistently: a blob exists when it was there
    initially or was uploaded earlier in the history; the folder does not
    change and no call fails. *)
Section ConsistentBucket.
Import index_documents.
Variable w : World.
Variable bucket : pystr.
Variable files : list pystr.
Variable initial : pystr -> bool.
Hypothesis Hbucket : BUCKET_NAME w = Some bucket.
Hypothesis Hnamed : truthy bucket = true.
Hypothesis Hclient : forall h, storage_client w h = inr tt.
Hypothesis Hglob : forall h pattern, glob w h pattern = files.
Hypothesis Hexists : forall h name,
  blob_exists w h bucket name = inr (initial name || uploaded h name).
Hypothesis Hupload : forall h name path,
  upload_from_filename w h bucket name path = inr tt.

Lemma uploaded_grows (h h1 : list event) (new : list (pystr * pystr))
  (name : pystr) :
  uploads h1 = uploads h ++ new ->
  uploaded h1 name
  = uploaded h name || existsb (fun u => PyStr.eqb (fst u) name) new.
Proof.
  unfold uploaded. intros ->. apply existsb_app.
Qed.

Lemma upload_loop_fills (fs : list pystr) (h : list event) :
  exists h1 new,
    upload_loop w bucket fs h = (h1, inr tt)
    /\ uploads h1 = uploads h ++ new
    /\ (forall p, In p fs ->
          initial (basename p) || uploaded h1 (basename p) = true)
    /\ (forall name path, In (name, path) new ->
          initial name = false /\ uploaded h name = false)
    /\ NoDup (map fst new).
Proof.
  revert h. induction fs as [|p fs IH]; intros h.
  - exists h, []. simpl. rewrite app_nil_r.
    repeat split; try easy. constructor.
  - simpl. unfold Trace.bind at 1, Trace.call. rewrite Hexists.
    destruct (initial (basename p) || uploaded h (basename p)) eqn:Hp.
    + unfold Trace.bind at 1, Trace.ret.
      destruct (IH (h ++ [EvBlobExists (basename p)]))
        as (h1 & new & Hrun & Hup & Hall & Hnew & Hnd).
      rewrite uploads_app in Hup. simpl in Hup. rewrite app_nil_r in Hup.
      exists h1, new. split; [exact Hrun|]. split; [exact Hup|].
      split; [|split; [|exact Hnd]].
      * intros q [<- | Hq]; [|now apply Hall].
        erewrite uploaded_grows by exact Hup.
        apply orb_true_iff in Hp. destruct Hp as [-> | ->]; [reflexivity|].
        simpl. apply orb_true_r.
      * intros name path Hin. destruct (Hnew _ _ Hin) as [Hi Hu].
        split; [exact Hi|]. unfold uploaded in *.
        rewrite uploads_app in Hu. simpl in Hu. now rewrite app_nil_r in Hu.
    + unfold Trace.bind at 1, Trace.call. rewrite Hupload.
      destruct (IH ((h ++ [EvBlobExists (basename p)])
                      ++ [EvUploadFromFilename (basename p) p]))
        as (h1 & new & Hrun & Hup & Hall & Hnew & Hnd).
      rewrite !uploads_app in Hup. simpl in Hup.
      rewrite app_nil_r, <- app_assoc in Hup. simpl in Hup.
      assert (Hh' : forall name,
        uploaded ((h ++ [EvBlobExists (basename p)])
                    ++ [EvUploadFromFilename (basename p) p]) name
        = uploaded h name || PyStr.eqb (basename p) name).
      { intros name. unfold uploaded. rewrite !uploads_app. simpl.
        rewrite app_nil_r, existsb_app. simpl. now rewrite orb_false_r. }
      apply orb_false_iff in Hp. destruct Hp as [Hpi Hpu].
      exists h1, ((basename p, p) :: new). split; [exact Hrun|].
      split; [exact Hup|]. split; [|split].
      * intros q [<- | Hq]; [|now apply Hall].
        erewrite uploaded_grows by exact Hup. simpl.
        rewrite pystr_eqb_refl. simpl. now rewrite !orb_true_r.
      * intros name path [[= <- <-] | Hin]; [now split|].
        destruct (Hnew _ _ Hin) as [Hi Hu]. split; [exact Hi|].
        rewrite Hh' in Hu. apply orb_false_iff in Hu. tauto.
      * simpl. constructor; [|exact Hnd]. intros Hin.
        apply in_map_iff in Hin. destruct Hin as ([name path] & Hf & Hin).
        simpl in Hf. subst name. destruct (Hnew _ _ Hin) as [_ Hu].
        rewrite Hh', pystr_eqb_refl, orb_true_r in Hu. discriminate.
Qed.

Lemma upload_loop_skips (fs : list pystr) (h : list event) :
  (forall p, In p fs ->
     initial (basename p) || uploaded h (basename p) = true) ->
  exists h1, upload_loop w bucket fs h = (h1, inr tt)
             /\ uploads h1 = uploads h.
Proof.
  revert h. induction fs as [|p fs IH]; intros h Hall.
  - now exists h.
  - simpl. unfold Trace.bind at 1, Trace.call. rewrite Hexists.
    rewrite (Hall p (or_introl eq_refl)).
    unfold Trace.bind at 1, Trace.ret.
    assert (Hsame : uploads (h ++ [EvBlobExists (basename p)]) = uploads h).
    { rewrite uploads_app. simpl. apply app_nil_r. }
    destruct (IH (h ++ [EvBlobExists (basename p)])) as (h1 & Hrun & Hup).
    { intros q Hq. unfold uploaded. rewrite Hsame. apply Hall. now right. }
    exists h1. split; [exact Hrun | congruence].
Qed.

Lemma upload_pdfs_runs_loop (h : list event) :
  upload_pdfs w h
  = upload_loop w bucket files
      ((h ++ [EvStorageClient])
         ++ [EvGlob (path_join (SOURCE_FOLDER w) (str "*.pdf"))]).
Proof.
  unfold upload_pdfs. rewrite Hbucket, Hnamed. cbn [negb].
  unfold Trace.bind, Trace.call. rewrite Hclient, Hglob.
  destruct files; reflexivity.
Qed.

Lemma uploads_after_setup (h : list event) :
  uploads ((h ++ [EvStorageClient])
             ++ [EvGlob (path_join (SOURCE_FOLDER w) (str "*.pdf"))])
  = uploads h.
Proof. rewrite !uploads_app. simpl. now rewrite !app_nil_r. Qed.

(** With such a bucket, a run ends normally with every PDF of the folder
    present in the bucket under its base name; it uploads no blob that was
    already there and no blob twice. *)
Theorem run_completes_bucket (h : list event) :
  exists h1 new,
    upload_pdfs w h = (h1, inr tt)
    /\ uploads h1 = uploads h ++ new
    /\ (forall p, In p files ->
          initial (basename p) || uploaded h1 (basename p) = true)
    /\ (forall name path, In (name, path) new ->
          initial name = false /\ uploaded h name = false)
    /\ NoDup (map fst new).
Proof.
  rewrite upload_pdfs_runs_loop.
  destruct (upload_loop_fills files
              ((h ++ [EvStorageClient])
                 ++ [EvGlob (path_join (SOURCE_FOLDER w) (str "*.pdf"))]))
    as (h1 & new & Hrun & Hup & Hall & Hnew & Hnd).
  rewrite uploads_after_setup in Hup.
  exists h1, new. repeat split; auto.
  - now apply Hnew in H.
  - apply Hnew in H. unfold uploaded in *.
    now rewrite uploads_after_setup in H.
Qed.

(** Idempotence: a second run over the same folder uploads nothing. *)
Theorem second_run_uploads_nothing (h : list event) :
  exists h1 h2,
    upload_pdfs w h = (h1, inr tt)
    /\ upload_pdfs w h1 = (h2, inr tt)
    /\ uploads h2 = uploads h1.
Proof.
  rewrite upload_pdfs_runs_loop.
  destruct (upload_loop_fills files
              ((h ++ [EvStorageClient])
                 ++ [EvGlob (path_join (SOURCE_FOLDER w) (str "*.pdf"))]))
    as (h1 & new & Hrun & _ & Hall & _).
  exists h1. rewrite upload_pdfs_runs_loop.
  destruct (upload_loop_skips files
              ((h1 ++ [EvStorageClient])
                 ++ [EvGlob (path_join (SOURCE_FOLDER w) (str "*.pdf"))]))
    as (h2 & Hrun2 & Hup2).
  { intros p Hp. unfold uploaded. rewrite uploads_after_setup.
    now apply Hall. }
  exists h2. rewrite uploads_after_setup in Hup2. auto.
Qed.
End ConsistentBucket.

(** ** api/telemetry.py *)

Section Telemetry.
Import telemetry.
Variable w : World.

Lemma cloud_logging_caught (h : list event) :
  exists h0,
    cloud_logging w h = (h0, inr tt)
    /\ filter is_trace_call h0 = filter is_trace_call h
    /\ (enabled w "CLOUD_LOGGING_ENABLED" = false -> h0 = h).
Proof.
  unfold cloud_logging, Trace.catch, Trace.bind, Trace.call, Trace.ret.
  destruct (enabled w "CLOUD_LOGGING_ENABLED").
  - destruct (logging_client w h) as [e | []];
      [|destruct (setup_logging w _) as [e | []]];
      eexists; (split; [reflexivity|]); rewrite ?filter_app; simpl;
      rewrite ?app_nil_r; split; try reflexivity; discriminate.
  - exists h. auto.
Qed.

Lemma cloud_trace_caught (h0 : list event) :
  exists h1,
    cloud_trace w h0 = (h1, inr tt)
    /\ (enabled w "CLOUD_TRACE_ENABLED" = false -> h1 = h0)
    /\ (enabled w "CLOUD_TRACE_ENABLED" = true ->
        exists rest, h1 = h0 ++ EvSetTracerProvider :: rest).
Proof.
  unfold cloud_trace, Trace.catch, Trace.bind, Trace.call, Trace.ret.
  destruct (enabled w "CLOUD_TRACE_ENABLED").
  - destruct (set_tracer_provider w h0) as [e | []];
      [|destruct (span_exporter w _ _) as [e | []];
        [|destruct (add_span_processor w _) as [e | []]]];
      eexists; (split; [reflexivity|]); (split; [discriminate|]);
      intros _; rewrite <- ?app_assoc; simpl; eexists; reflexivity.
  - exists h0. split; [reflexivity|]. split; [reflexivity | discriminate].
Qed.

(** [setup_telemetry] never raises, whatever fails underneath.  With both
    switches off (the default) it calls nothing; with the trace switch on,
    the tracer provider is set up whatever happened to Cloud Logging, whose
    part makes no trace call. *)
Theorem setup_telemetry_is_safe (h : list event) :
  exists h1,
    setup_telemetry w h = (h1, inr tt)
    /\ (enabled w "CLOUD_LOGGING_ENABLED" = false ->
        enabled w "CLOUD_TRACE_ENABLED" = false -> h1 = h)
    /\ (enabled w "CLOUD_TRACE_ENABLED" = true ->
        exists h0 rest,
          h1 = h0 ++ EvSetTracerProvider :: rest
          /\ filter is_trace_call h0 = filter is_trace_call h).
Proof.
  destruct (cloud_logging_caught h) as (h0 & Hlog & Hfilter & Hoff).
  destruct (cloud_trace_caught h0) as (h1 & Htrace & Hoff' & Hon).
  exists h1. split; [|split].
  - unfold setup_telemetry, Trace.bind. now rewrite Hlog.
  - intros Hl Ht. rewrite (Hoff' Ht). auto.
  - intros Ht. destruct (Hon Ht) as [rest ->]. now exists h0, rest.
Qed.

(** The switches are read case-insensitively, and an unset switch is off. *)
Lemma switch_values :
  lower_is_true (str "true") = true /\ lower_is_true (str "TRUE") = true
  /\ lower_is_true (str "True") = true /\ lower_is_true (str "false") = false
  /\ lower_is_true (str "1") = false /\ lower_is_true (str "yes") = false.
Proof. repeat split. Qed.
End Telemetry.

(* ------------------------------------------------------------------ *)
(** * The further properties at sample inputs *)

Lemma extracted_transcript_trimmed_witness :
  VideoIntelligenceService.extract_data Sample.service
    {| videointelligence.annotation_results := [Sample.talk] |}
  = inr More.talk_output
  /\ exists t,
       upd_transcript More.talk_output = Some t
       /\ (forall c r, t = c :: r -> isspace c = false)
       /\ (forall c r, t = r ++ [c] -> isspace c = false).
Proof.
  split; [reflexivity|].
  apply (@extracted_transcript_trimmed Sample.service
           {| videointelligence.annotation_results := [Sample.talk] |}
           More.talk_output).
  reflexivity.
Defined.

Lemma extracted_ocr_text_verbatim_witness :
  VideoIntelligenceService.extract_data Sample.service
    {| videointelligence.annotation_results := [Sample.talk] |}
  = inr More.talk_output
  /\ upd_ocr_text More.talk_output = Some [str "50% OFF"; str "T&C apply"]
  /\ upd_errors More.talk_output = None
  /\ upd_final_status More.talk_output = None.
Proof.
  split; [reflexivity|].
  apply (@extracted_ocr_text_verbatim Sample.service Sample.talk []
           More.talk_output).
  reflexivity.
Defined.

Lemma empty_label_segments_fail_extraction_witness :
  annotate_steps More.unlabelled_video Sample.state0 []
  = (More.unlabelled_history,
     inr (Sample.service, More.unlabelled_response))
  /\ index_video_node More.unlabelled_video Sample.state0 []
     = (More.unlabelled_history,
        inr (index_failure
               (Exn "IndexError" (str "list index out of range")))).
Proof.
  split; [reflexivity|].
  apply (@empty_label_segments_fail_extraction More.unlabelled_video
           Sample.state0 [] More.unlabelled_history Sample.service
           More.unlabelled [] {| videointelligence.segments := [] |} []);
    reflexivity.
Defined.

Lemma unterminated_fence_unchanged_witness :
  contains fence (str "" ++ str "``") = false
  /\ contains fence (str "json{" ++ Sample.quoted "status") = false
  /\ clean_markdown More.cut_off = Some More.cut_off.
Proof.
  split; [reflexivity|]. split; [reflexivity|].
  apply (@unterminated_fence_unchanged (str "")
           (str "json{" ++ Sample.quoted "status")); reflexivity.
Defined.

Lemma judgment_reads_three_fields_witness :
  final_status Sample.extracted <> final_status More.flagged
  /\ audit_content_node More.json_loads More.passing Sample.extracted []
     = audit_content_node More.json_loads More.passing More.flagged [].
Proof.
  split; [discriminate|].
  apply (@judgment_reads_three_fields More.json_loads More.passing
           Sample.extracted More.flagged []); reflexivity.
Defined.

Lemma status_other_than_fail_is_the_models_witness :
  audit_content_node More.json_loads More.passing Sample.extracted []
  = (More.pass_history, inr More.pass_output)
  /\ upd_final_status More.pass_output = Some (VStr (str "PASS"))
  /\ exists (h0 : history) (messages : LlmMessages) (content : pystr)
            (items : list (pystr * pyval)),
       More.pass_history = h0 ++ [EvLlmInvoke messages]
       /\ llm_invoke More.passing h0 messages = inr content
       /\ load_response More.json_loads content = inr (VDict items)
       /\ dict_has items (str "status") = true
       /\ dict_get items (str "status") (VStr (str "FAIL"))
          = VStr (str "PASS")
       /\ More.pass_output = audit_result items.
Proof.
  split; [reflexivity|]. split; [reflexivity|].
  apply (@status_other_than_fail_is_the_models More.json_loads More.passing
           Sample.extracted [] More.pass_history More.pass_output
           (VStr (str "PASS")));
    [reflexivity | reflexivity | discriminate].
Defined.

Lemma single_inference_no_retry_witness :
  exists out,
    audit_content_node More.json_loads More.passing Sample.extracted []
    = ([EvLlmInit; EvRetrieverInit; EvRetrieve (str "no claims here ")]
         ++ [EvLlmInvoke
               (audit_messages Sample.extracted (str "no claims here")
                  [Sample.doc])],
       inr out)
    /\ out = More.pass_output.
Proof.
  apply (@single_inference_no_retry More.json_loads More.passing
           Sample.extracted (str "no claims here") eq_refl eq_refl []
           [EvLlmInit; EvRetrieverInit; EvRetrieve (str "no claims here ")]
           [Sample.doc]).
  reflexivity.
Defined.

Lemma no_rules_found_still_audits_witness :
  exists (messages : LlmMessages) (out : Update),
    audit_content_node More.json_loads More.no_rules Sample.extracted []
    = ([EvLlmInit; EvRetrieverInit; EvRetrieve (str "no claims here ");
        EvRetrieve FALLBACK_QUERY; EvLlmInvoke messages],
       inr out)
    /\ retrieved_rules messages = str ""
    /\ msg_transcript messages = str "no claims here".
Proof.
  apply (@no_rules_found_still_audits More.json_loads More.no_rules
           Sample.extracted (str "no claims here") eq_refl eq_refl []);
    reflexivity.
Defined.

Lemma judgment_output_keys_witness :
  audit_content_node More.json_loads More.passing Sample.extracted []
  = (More.pass_history, inr More.pass_output)
  /\ upd_final_status More.pass_output <> None
  /\ upd_transcript More.pass_output = None.
Proof.
  split; [reflexivity|].
  destruct (@judgment_output_keys More.json_loads More.passing
              Sample.extracted [] More.pass_history More.pass_output eq_refl)
    as (Hs & _ & _ & _ & _ & Ht & _).
  split; [exact Hs | exact Ht].
Defined.

Lemma extraction_reads_two_fields_witness :
  transcript Sample.state0 <> transcript Sample.extracted
  /\ index_video_node Sample.working Sample.state0 []
     = index_video_node Sample.working Sample.extracted [].
Proof.
  split; [discriminate|].
  apply (@extraction_reads_two_fields Sample.working Sample.state0
           Sample.extracted []); reflexivity.
Defined.

Lemma extraction_call_sequence_witness :
  annotate_steps Sample.working More.anonymous []
  = (More.demo_history, inr (Sample.service, Sample.spoken))
  /\ exists (url : pystr) (cleanup : history),
       video_url More.anonymous = Some url
       /\ (cleanup = [] \/ cleanup = [EvRemove (str "temp_vid_demo.mp4")])
       /\ More.demo_history
          = [] ++ [EvServiceInit;
                   EvDownload url (str "temp_vid_demo.mp4");
                   EvUpload (str "temp_vid_demo.mp4")
                     (str "videos/vid_demo.mp4");
                   EvPathExists (str "temp_vid_demo.mp4")]
               ++ cleanup
               ++ [EvAnnotate (str "gs://brand-videos/videos/vid_demo.mp4")].
Proof.
  split; [reflexivity|].
  apply (@extraction_call_sequence Sample.working More.anonymous []
           More.demo_history Sample.service Sample.spoken).
  reflexivity.
Defined.

Lemma invalid_url_rejected_witness :
  index_video_node Sample.working More.elsewhere []
  = ([EvServiceInit],
     inr (index_failure
            (Exn "Exception"
               (str "Please provide a valid YouTube URL for this test.")))).
Proof.
  destruct (@invalid_url_rejected Sample.working More.elsewhere []
              eq_refl eq_refl) as (e & H & He & _).
  rewrite H, He; [reflexivity | discriminate].
Defined.

Lemma failed_upload_keeps_local_file_witness :
  index_video_node More.upload_down Sample.state0 []
  = ([EvServiceInit;
      EvDownload (str "https://youtu.be/dT7S75eYhcQ")
        (str "temp_vid_ce6c43bb.mp4");
      EvUpload (str "temp_vid_ce6c43bb.mp4") (str "videos/vid_ce6c43bb.mp4")],
     inr (index_failure
            (Exn "Exception" (str "GCS Upload Failed: 403 Access denied")))).
Proof.
  apply (@failed_upload_keeps_local_file More.upload_down Sample.state0 []
           (str "https://youtu.be/dT7S75eYhcQ")
           (Exn "Forbidden" (str "403 Access denied")));
    reflexivity.
Defined.

Lemma failed_upload_aborts_run_witness :
  index_documents.upload_loop More.refusing (str "brand-guidelines")
    ([str "backend/data/brand.pdf"]
       ++ str "backend/data/legal.pdf" :: [str "backend/data/terms.pdf"]) []
  = ([index_documents.EvBlobExists (str "brand.pdf")]
       ++ [index_documents.EvBlobExists (str "legal.pdf");
           index_documents.EvUploadFromFilename (str "legal.pdf")
             (str "backend/data/legal.pdf")],
     inl (Exn "Forbidden" (str "403 Access denied"))).
Proof.
  apply (@failed_upload_aborts_run More.refusing (str "brand-guidelines")
           [str "backend/data/brand.pdf"] [str "backend/data/terms.pdf"]
           (str "backend/data/legal.pdf") []
           [index_documents.EvBlobExists (str "brand.pdf")]);
    reflexivity.
Defined.

Lemma uploads_at_bucket_root_witness :
  index_documents.upload_pdfs More.steady [] = (More.steady_history, inr tt)
  /\ index_documents.uploads More.steady_history
     = [(str "legal.pdf", str "backend/data/legal.pdf")]
  /\ exists new,
       More.steady_history = [] ++ new
       /\ (forall name path,
             In (name, path) (index_documents.uploads new) ->
             name = index_documents.basename path
             /\ ~ In index_documents.slash name)
       /\ (index_documents.BUCKET_NAME More.steady = None
           \/ index_documents.BUCKET_NAME More.steady = Some (str "") ->
           new = []).
Proof.
  split; [reflexivity|]. split; [reflexivity|].
  apply (@uploads_at_bucket_root More.steady [] More.steady_history (inr tt)).
  reflexivity.
Defined.

Lemma run_completes_bucket_witness :
  exists h1 new,
    index_documents.upload_pdfs More.steady [] = (h1, inr tt)
    /\ index_documents.uploads h1 = index_documents.uploads [] ++ new
    /\ (forall p, In p More.folder ->
          More.held (index_documents.basename p)
          || index_documents.uploaded h1 (index_documents.basename p) = true)
    /\ (forall name path, In (name, path) new ->
          More.held name = false /\ index_documents.uploaded [] name = false)
    /\ NoDup (map fst new).
Proof.
  apply (@run_completes_bucket More.steady (str "brand-guidelines")
           More.folder More.held);
    try reflexivity; intros; reflexivity.
Defined.

Lemma second_run_uploads_nothing_witness :
  exists h1 h2,
    index_documents.upload_pdfs More.steady [] = (h1, inr tt)
    /\ index_documents.upload_pdfs More.steady h1 = (h2, inr tt)
    /\ index_documents.uploads h2 = index_documents.uploads h1.
Proof.
  apply (@second_run_uploads_nothing More.steady (str "brand-guidelines")
           More.folder More.held);
    try reflexivity; intros; reflexivity.
Defined.
